(** * curseforgepy: download engine and modpack installer

    A shallow embedding of the file-store helpers ([fileops.py]), the
    retrying download engine ([download.py]), the helpers of [utils.py]
    they call, and the installation orchestrator ([installer.py]),
    together with the properties of the specification that concern them.

    Conventions of the embedding
    - Python [str] is [string]; [bytes] is [list byte]; [int] is [Z];
      [float] seconds are exact rationals [Q] (rounding error of binary
      floating point is not modelled).
    - A [pathlib.Path] is the list of its components from the root.
    - The file system is a finite map from paths to nodes.  Symbolic links,
      permissions and time stamps are not modelled.
    - Code that performs I/O runs in a state-and-exception monad [M] over
      [World]; a Python [try/except] is [try_except], which keeps the
      effects performed before the exception was raised.
    - What the environment decides (HTTP answers, random draws, library
      parsers, digests) is collected in the record [Env]. *)

From Stdlib Require Import ZArith QArith Qround Qminmax Lqa Lia Bool List Ascii String.
From Stdlib.Strings Require Import Byte.
From stdpp Require Import base option list strings gmap fin_maps pretty.

#[local] Set Warnings "-register-all".

Local Open Scope string_scope.
Local Open Scope list_scope.
Local Open Scope Z_scope.

(* ================================================================== *)
(** ** Python strings *)
(* ================================================================== *)

Definition is_upper (c : ascii) : bool :=
  let n := nat_of_ascii c in (65 <=? n)%nat && (n <=? 90)%nat.

Definition lower_ascii (c : ascii) : ascii :=
  if is_upper c then ascii_of_nat (nat_of_ascii c + 32) else c.

(** [str.lower] on ASCII text. *)
Fixpoint lower (s : string) : string :=
  match s with
  | EmptyString => EmptyString
  | String c r => String (lower_ascii c) (lower r)
  end.

Definition is_digit (c : ascii) : bool :=
  let n := nat_of_ascii c in (48 <=? n)%nat && (n <=? 57)%nat.

Definition is_space (c : ascii) : bool :=
  let n := nat_of_ascii c in
  (n =? 32)%nat || ((9 <=? n)%nat && (n <=? 13)%nat).

Fixpoint all_digits (s : string) : bool :=
  match s with
  | EmptyString => true
  | String c r => is_digit c && all_digits r
  end.

(** [str.isdigit]: non-empty and decimal digits only. *)
Definition isdigit (s : string) : bool :=
  match s with
  | EmptyString => false
  | _ => all_digits s
  end.

Fixpoint int_of_digits_acc (acc : Z) (s : string) : Z :=
  match s with
  | EmptyString => acc
  | String c r => int_of_digits_acc (10 * acc + (Z.of_nat (nat_of_ascii c) - 48)) r
  end.

(** [int(s)] for a string of decimal digits. *)
Definition int_of_digits (s : string) : Z := int_of_digits_acc 0 s.

Fixpoint lstrip (s : string) : string :=
  match s with
  | String c r => if is_space c then lstrip r else s
  | EmptyString => EmptyString
  end.

Fixpoint rstrip (s : string) : string :=
  match s with
  | EmptyString => EmptyString
  | String c r =>
      match rstrip r with
      | EmptyString => if is_space c then EmptyString else String c EmptyString
      | r' => String c r'
      end
  end.

(** [str.strip()]. *)
Definition strip (s : string) : string := rstrip (lstrip s).

Fixpoint starts_with (p s : string) : bool :=
  match p, s with
  | EmptyString, _ => true
  | String a p', String b s' => if Ascii.eqb a b then starts_with p' s' else false
  | String _ _, EmptyString => false
  end.

(** [sub in s]. *)
Fixpoint contains (sub s : string) : bool :=
  starts_with sub s ||
  match s with
  | EmptyString => false
  | String _ r => contains sub r
  end.

(** [s.split(sep)[0]] for a one-character separator. *)
Fixpoint before_first (sep : ascii) (s : string) : string :=
  match s with
  | EmptyString => EmptyString
  | String c r => if Ascii.eqb c sep then EmptyString else String c (before_first sep r)
  end.

(** [s.rstrip(c)] for a single character. *)
Fixpoint rstrip_char (ch : ascii) (s : string) : string :=
  match s with
  | EmptyString => EmptyString
  | String c r =>
      match rstrip_char ch r with
      | EmptyString => if Ascii.eqb c ch then EmptyString else String c EmptyString
      | r' => String c r'
      end
  end.

(** [s.split(sep)]: never empty. *)
Fixpoint split_on (sep : ascii) (s : string) : list string :=
  match s with
  | EmptyString => [EmptyString]
  | String c r =>
      if Ascii.eqb c sep then EmptyString :: split_on sep r
      else match split_on sep r with
           | [] => [String c EmptyString]
           | w :: ws => String c w :: ws
           end
  end.

(** [os.path.basename] on POSIX: what follows the last slash. *)
Definition basename (s : string) : string :=
  List.last (split_on "/" s) EmptyString.

(** Python truth value of a string. *)
Definition str_truthy (s : string) : bool :=
  match s with EmptyString => false | _ => true end.

(* ================================================================== *)
(** ** JSON values (parsed manifests, API metadata) *)
(* ================================================================== *)

(** Numbers are integers: the identifiers and sizes of the manifest and of
    the API are; JSON floats are not modelled. *)
Inductive json : Type :=
| JNull
| JBool (b : bool)
| JInt (z : Z)
| JStr (s : string)
| JList (l : list json)
| JDict (d : list (string * json)).

(** Python truth value. *)
Definition truthy (v : json) : bool :=
  match v with
  | JNull => false
  | JBool b => b
  | JInt z => negb (z =? 0)%Z
  | JStr s => str_truthy s
  | JList l => match l with [] => false | _ => true end
  | JDict d => match d with [] => false | _ => true end
  end.

(** [a or b]. *)
Definition py_or (a b : json) : json := if truthy a then a else b.

(** A Python [dict] with string keys, in insertion order; keys are distinct. *)
Definition dict (V : Type) := list (string * V).

Fixpoint dict_get {V} (d : dict V) (k : string) : option V :=
  match d with
  | [] => None
  | (k', v) :: r => if String.eqb k' k then Some v else dict_get r k
  end.

(** [d[k] = v]: an existing key keeps its position. *)
Fixpoint dict_set {V} (d : dict V) (k : string) (v : V) : dict V :=
  match d with
  | [] => [(k, v)]
  | (k', v') :: r => if String.eqb k' k then (k, v) :: r else (k', v') :: dict_set r k v
  end.

(** [d.get(k)], with the default [None] rendered as [JNull]. *)
Definition jget (d : dict json) (k : string) : json :=
  default JNull (dict_get d k).

(* ================================================================== *)
(** ** Exceptions *)
(* ================================================================== *)

Inductive exn_kind : Type :=
| ValueError | TypeError | AttributeError | UnboundLocalError
| FileNotFoundError | FileExistsError | NotADirectoryError | IsADirectoryError
| OSError | ConnectionError
| DownloadError | ManifestError.

#[global] Instance exn_kind_eq_decision : EqDecision exn_kind.
Proof. solve_decision. Defined.

(** An exception: its class and [str(exc)]. *)
Record exn : Type := Exn { exn_kind_of : exn_kind; exn_msg : string }.

Inductive res (A : Type) : Type :=
| Ok (a : A)
| Raise (e : exn).
Arguments Ok {A} a.
Arguments Raise {A} e.

Definition is_ok {A} (r : res A) : bool :=
  match r with Ok _ => true | Raise _ => false end.

(** [int(v)].  Digit separators and surrounding sign handling beyond a
    leading [+]/[-] are not modelled. *)
Definition py_int (v : json) : res Z :=
  match v with
  | JInt z => Ok z
  | JBool b => Ok (if b then 1 else 0)
  | JStr s =>
      let t := strip s in
      match t with
      | String "-" d => if isdigit d then Ok (- int_of_digits d)
                        else Raise (Exn ValueError ("invalid literal for int(): " +:+ s))
      | String "+" d => if isdigit d then Ok (int_of_digits d)
                        else Raise (Exn ValueError ("invalid literal for int(): " +:+ s))
      | _ => if isdigit t then Ok (int_of_digits t)
             else Raise (Exn ValueError ("invalid literal for int(): " +:+ s))
      end
  | _ => Raise (Exn TypeError "int() argument must be a string or a number")
  end.

(* ================================================================== *)
(** ** The file system *)
(* ================================================================== *)

Abbreviation path := (list string).
Abbreviation bytes := (list byte).

Inductive node : Type :=
| Dir
| File (data : bytes).

#[global] Instance byte_eq_decision : EqDecision byte := Byte.byte_eq_dec.
#[global] Instance node_eq_decision : EqDecision node.
Proof. solve_decision. Defined.

Abbreviation FS := (gmap path node).

(** [Path.exists()], [Path.is_dir()] and file content. *)
Definition fs_exists (fs : FS) (p : path) : bool :=
  match fs !! p with Some _ => true | None => false end.

Definition fs_is_dir (fs : FS) (p : path) : bool :=
  match fs !! p with Some Dir => true | _ => false end.

(** [Path.parent] and [Path.name]; the root is its own parent and has the
    empty name. *)
Definition parent (p : path) : path := removelast p.
Definition name (p : path) : string := List.last p EmptyString.

(** [q = p ++ r] gives [Some r]. *)
Fixpoint strip_prefix (p q : path) : option path :=
  match p, q with
  | [], _ => Some q
  | a :: p', b :: q' => if String.eqb a b then strip_prefix p' q' else None
  | _ :: _, [] => None
  end.

Definition under (root q : path) : bool :=
  match strip_prefix root q with Some _ => true | None => false end.

(** The entries at or below [src], re-rooted at [dst]. *)
Definition reroot (src dst : path) (fs : FS) : FS :=
  map_fold (fun q n acc =>
              match strip_prefix src q with
              | Some r => <[dst ++ r := n]> acc
              | None => acc
              end) ∅ fs.

(** What is left when the tree at [p] is taken away. *)
Definition prune (p : path) (fs : FS) : FS :=
  filter (fun kv => strip_prefix p kv.1 = None) fs.

(** The non-empty prefixes of a path, shortest first. *)
Fixpoint prefixes_from (done todo : path) : list path :=
  match todo with
  | [] => []
  | c :: r => (done ++ [c]) :: prefixes_from (done ++ [c]) r
  end.

Definition ancestors_and_self (p : path) : list path := prefixes_from [] p.

(** [Path.mkdir(parents=True, exist_ok=True)]: every missing component is
    created; a component that is a regular file is an error. *)
Fixpoint mkdir_chain (target : path) (qs : list path) (fs : FS) : FS * res unit :=
  match qs with
  | [] => (fs, Ok tt)
  | q :: r =>
      match fs !! q with
      | Some Dir => mkdir_chain target r fs
      | Some (File _) =>
          (fs, Raise (Exn (if bool_decide (q = target) then FileExistsError
                           else NotADirectoryError) "mkdir"))
      | None => mkdir_chain target r (<[q := Dir]> fs)
      end
  end.

Definition fs_mkdir_p (p : path) (fs : FS) : FS * res unit :=
  mkdir_chain p (ancestors_and_self p) fs.

(** [open(p, "wb")] and [open(p, "ab")]: the parent must be a directory and
    [p] must not be one.  The file is created, and truncated in "wb". *)
Definition fs_open (append : bool) (p : path) (fs : FS) : FS * res unit :=
  if negb (fs_is_dir fs (parent p)) then
    (fs, Raise (Exn FileNotFoundError "open: no such directory"))
  else
    match fs !! p with
    | Some Dir => (fs, Raise (Exn IsADirectoryError "open: is a directory"))
    | Some (File d) => (if append then fs else <[p := File []]> fs, Ok tt)
    | None => (<[p := File []]> fs, Ok tt)
    end.

(** [f.write(chunk)] on a file opened at [p]. *)
Definition fs_append (p : path) (chunk : bytes) (fs : FS) : FS :=
  match fs !! p with
  | Some (File d) => <[p := File (d ++ chunk)]> fs
  | _ => fs
  end.

(** [Path.unlink()]. *)
Definition fs_unlink (p : path) (fs : FS) : FS * res unit :=
  match fs !! p with
  | Some (File _) => (delete p fs, Ok tt)
  | Some Dir => (fs, Raise (Exn IsADirectoryError "unlink: is a directory"))
  | None => (fs, Raise (Exn FileNotFoundError "unlink: no such file"))
  end.

(** [os.replace(src, dst)] and [os.rename] on POSIX. *)
Definition fs_replace (src dst : path) (fs : FS) : FS * res unit :=
  match fs !! src with
  | None => (fs, Raise (Exn FileNotFoundError "replace: no such file"))
  | Some (File d) =>
      match fs !! dst with
      | Some Dir => (fs, Raise (Exn IsADirectoryError "replace: is a directory"))
      | _ =>
          if negb (fs_is_dir fs (parent dst)) then
            (fs, Raise (Exn FileNotFoundError "replace: no such directory"))
          else (<[dst := File d]> (delete src fs), Ok tt)
      end
  | Some Dir =>
      match fs !! dst with
      | Some (File _) => (fs, Raise (Exn NotADirectoryError "replace: not a directory"))
      | Some Dir =>
          if bool_decide (reroot dst [] fs = {[ [] := Dir ]}) then
            if under src dst then (fs, Raise (Exn OSError "replace: invalid argument"))
            else (reroot src dst fs ∪ prune src (prune dst fs), Ok tt)
          else (fs, Raise (Exn OSError "replace: directory not empty"))
      | None =>
          if under src dst then (fs, Raise (Exn OSError "replace: invalid argument"))
          else if negb (fs_is_dir fs (parent dst)) then
            (fs, Raise (Exn FileNotFoundError "replace: no such directory"))
          else (reroot src dst fs ∪ prune src fs, Ok tt)
      end
  end.

(** [shutil.move(src, dst)]: into [dst] when that is a directory, else a
    rename.  Source and destination are on one file system here. *)
Definition fs_move (src dst : path) (fs : FS) : FS * res unit :=
  match fs !! src with
  | None => (fs, Raise (Exn FileNotFoundError "move: no such file"))
  | Some _ =>
      if fs_is_dir fs dst then
        let real_dst := dst ++ [name src] in
        if fs_exists fs real_dst then
          (fs, Raise (Exn OSError "move: destination path already exists"))
        else fs_replace src real_dst fs
      else fs_replace src dst fs
  end.

(** [shutil.rmtree(p)]. *)
Definition fs_rmtree (p : path) (fs : FS) : FS * res unit :=
  match fs !! p with
  | Some Dir => (prune p fs, Ok tt)
  | Some (File _) => (fs, Raise (Exn NotADirectoryError "rmtree: not a directory"))
  | None => (fs, Raise (Exn FileNotFoundError "rmtree: no such directory"))
  end.

(** [shutil.copytree(src, dst)]: [dst] must not exist; its parents are
    created.  A destination inside the source makes the real function
    recurse until the operating system refuses the path; that run is
    rendered as an error and the partial copy it leaves is not modelled. *)
Definition fs_copytree (src dst : path) (fs : FS) : FS * res unit :=
  match fs !! src with
  | None => (fs, Raise (Exn FileNotFoundError "copytree: no such directory"))
  | Some (File _) => (fs, Raise (Exn NotADirectoryError "copytree: not a directory"))
  | Some Dir =>
      if fs_exists fs dst then (fs, Raise (Exn FileExistsError "copytree: file exists"))
      else if under src dst then (fs, Raise (Exn OSError "copytree: file name too long"))
      else
        match fs_mkdir_p (parent dst) fs with
        | (fs1, Ok _) => (reroot src dst fs ∪ fs1, Ok tt)
        | (fs1, Raise e) => (fs1, Raise e)
        end
  end.

(** [shutil.copy2(src, dst)] for a regular file. *)
Definition fs_copy2 (src dst : path) (fs : FS) : FS * res unit :=
  match fs !! src with
  | Some (File d) =>
      if negb (fs_is_dir fs (parent dst)) then
        (fs, Raise (Exn FileNotFoundError "copy2: no such directory"))
      else
        match fs !! dst with
        | Some Dir => (<[dst ++ [name src] := File d]> fs, Ok tt)
        | _ => (<[dst := File d]> fs, Ok tt)
        end
  | Some Dir => (fs, Raise (Exn IsADirectoryError "copy2: is a directory"))
  | None => (fs, Raise (Exn FileNotFoundError "copy2: no such file"))
  end.

(* ================================================================== *)
(** ** The world, the environment and the monad of effects *)
(* ================================================================== *)

(** What [Response.iter_content] yields: chunks, or a transport error that
    is raised in the middle of the body. *)
Inductive stream_item : Type :=
| Chunk (b : bytes)
| StreamError (msg : string).

(** A [requests.Response]. *)
Record Response : Type := {
  status_code : Z;
  reason : string;
  headers : dict string;
  resp_url : string;
  content : list stream_item
}.

(** Header names are compared without regard to case, as [requests] does. *)
Fixpoint headers_get (h : dict string) (k : string) : option string :=
  match h with
  | [] => None
  | (k', v) :: r => if String.eqb (lower k') (lower k) then Some v else headers_get r k
  end.

Inductive event : Type :=
| EvClient (method : string) (project_id file_id : Z)
| EvGet (url : string) (request_headers : dict string)
| EvSleep (seconds : Q).

Record World : Type := {
  w_fs : FS;
  w_trace : list event;      (* newest last *)
  w_requests : nat;          (* HTTP requests issued so far *)
  w_draws : nat;             (* calls of random.random() so far *)
  w_clock : Q                (* time.time() *)
}.

(** What the code cannot decide by itself. *)
Record Env : Type := {
  (** answer of the n-th HTTP request (or the exception [requests] raises) *)
  requests_get : nat -> string -> dict string -> res Response;
  (** the n-th value of [random.random()], in [0, 1) *)
  random_random : nat -> Q;
  (** [email.utils.parsedate_to_datetime(s).timestamp()]; [None] when the
      library raises *)
  parsedate_to_datetime : string -> option Q;
  (** [str(x)] of a float *)
  float_str : Q -> string;
  (** [time.strftime("%Y%m%dT%H%M%SZ")] at a given clock value *)
  strftime_stamp : Q -> string;
  (** [hashlib] hex digests *)
  sha1_hex : bytes -> string;
  sha256_hex : bytes -> string;
  md5_hex : bytes -> string;
  (** the working directory, against which a relative path is resolved *)
  cwd : path;
  (** decoding of an existing manifest file with [json] and [zipfile]:
      the manifest, the directory the overrides were found in or unpacked
      to, and the file system with what was unpacked; or the exception *)
  decode_manifest : FS -> path -> FS * res (dict json * option path)
}.

Definition M (A : Type) : Type := World -> World * res A.

Definition ret {A} (a : A) : M A := fun w => (w, Ok a).

Definition bind {A B} (m : M A) (k : A -> M B) : M B :=
  fun w => match m w with
           | (w', Ok a) => k a w'
           | (w', Raise e) => (w', Raise e)
           end.

Definition raise {A} (e : exn) : M A := fun w => (w, Raise e).

(** [try: m  except Exception as e: h e]. *)
Definition try_except {A} (m : M A) (h : exn -> M A) : M A :=
  fun w => match m w with
           | (w', Ok a) => (w', Ok a)
           | (w', Raise e) => h e w'
           end.

Definition lift_res {A} (r : res A) : M A := fun w => (w, r).

Declare Scope py_scope.
Delimit Scope py_scope with py.
Notation "x <- m ;; k" := (bind m (fun x => k))
  (at level 100, m at next level, right associativity) : py_scope.
Notation "m ;;; k" := (bind m (fun _ => k))
  (at level 100, right associativity) : py_scope.
Local Open Scope py_scope.

(** A file-system operation as an action. *)
Definition on_fs {A} (op : FS -> FS * res A) : M A :=
  fun w => let '(fs', r) := op (w_fs w) in
           ({| w_fs := fs'; w_trace := w_trace w; w_requests := w_requests w;
               w_draws := w_draws w; w_clock := w_clock w |}, r).

Definition get_fs : M FS := fun w => (w, Ok (w_fs w)).

Definition set_fs (fs : FS) : M unit :=
  on_fs (fun _ => (fs, Ok tt)).

Definition log (e : event) : M unit :=
  fun w => ({| w_fs := w_fs w; w_trace := w_trace w ++ [e]; w_requests := w_requests w;
               w_draws := w_draws w; w_clock := w_clock w |}, Ok tt).

(** [time.time()]. *)
Definition time_time : M Q := fun w => (w, Ok (w_clock w)).

(** [time.sleep(d)]. *)
Definition time_sleep (d : Q) : M unit :=
  fun w =>
    if Qlt_le_dec d 0 then (w, Raise (Exn ValueError "sleep length must be non-negative"))
    else ({| w_fs := w_fs w; w_trace := w_trace w ++ [EvSleep d];
             w_requests := w_requests w; w_draws := w_draws w;
             w_clock := (w_clock w + d)%Q |}, Ok tt).

(** [random.random()]. *)
Definition random (env : Env) : M Q :=
  fun w => ({| w_fs := w_fs w; w_trace := w_trace w; w_requests := w_requests w;
               w_draws := S (w_draws w); w_clock := w_clock w |},
            Ok (random_random env (w_draws w))).

(** [requests.get(url, stream=True, headers=h)]. *)
Definition http_get (env : Env) (url : string) (h : dict string) : M Response :=
  fun w => ({| w_fs := w_fs w; w_trace := w_trace w ++ [EvGet url h];
               w_requests := S (w_requests w); w_draws := w_draws w;
               w_clock := w_clock w |},
            requests_get env (w_requests w) url h).

(** The number of HTTP requests recorded in a trace. *)
Definition is_get (e : event) : bool :=
  match e with EvGet _ _ => true | _ => false end.

Definition count_gets (t : list event) : nat := length (List.filter is_get t).

(* ================================================================== *)
(** ** utils.py: back-off and Retry-After *)
(* ================================================================== *)

(** [round(x)] to the nearest integer, ties to even. *)
Definition round_half_even (q : Q) : Z :=
  let f := Qfloor q in
  match Qcompare (q - inject_Z f) (1 # 2) with
  | Lt => f
  | Gt => f + 1
  | Eq => if Z.even f then f else f + 1
  end.

(** [round(x, 4)]. *)
Definition round4 (q : Q) : Q :=
  (inject_Z (round_half_even (q * 10000)) / 10000)%Q.

(** [exponential_backoff(attempt, base, factor, max_interval)]. *)
Definition exponential_backoff_full (env : Env)
    (attempt : Z) (base factor max_interval : Q) : M Q :=
  if attempt <? 1 then raise (Exn ValueError "attempt must be >= 1")
  else if Qlt_le_dec base 0 then
    raise (Exn ValueError "base, factor and max_interval must be positive numbers")
  else if Qlt_le_dec 0 factor then
    if Qlt_le_dec 0 max_interval then
      let raw := (base * Qpower factor (attempt - 1))%Q in
      let delay := Qmin raw max_interval in
      let jitter_amount := (delay * (1 # 10))%Q in
      u <- random env ;;
      let jitter := ((u * 2 - 1) * jitter_amount)%Q in
      let final := Qmax 0 (delay + jitter) in
      ret (round4 final)
    else raise (Exn ValueError "base, factor and max_interval must be positive numbers")
  else raise (Exn ValueError "base, factor and max_interval must be positive numbers").

(** The call made everywhere in the package:
    [exponential_backoff(attempt, base=b)] with the defaults
    [factor=2.0] and [max_interval=30.0]. *)
Definition exponential_backoff (env : Env) (attempt : Z) (base : Q) : M Q :=
  exponential_backoff_full env attempt base 2 30.

(** The argument of [parse_retry_after]: [None], a number or a string. *)
Inductive retry_after_value : Type :=
| RaNone
| RaNum (q : Q)
| RaStr (s : string).

(** [parse_retry_after(value)], evaluated when [time.time()] is [now]. *)
Definition parse_retry_after (env : Env) (now : Q) (value : retry_after_value) : Q :=
  match value with
  | RaNone => 0
  | RaNum sec => if Qlt_le_dec sec 0 then 0 else sec
  | RaStr v =>
      let s := strip v in
      if isdigit s then inject_Z (int_of_digits s)
      else
        match parsedate_to_datetime env v with
        | Some retry_ts =>
            let wait := (retry_ts - now)%Q in
            if Qlt_le_dec 0 wait then wait else 0
        | None => 0
        end
  end.

(** [resp.headers.get("Retry-After")] as an argument of the parser. *)
Definition retry_after_header (resp : Response) : retry_after_value :=
  match headers_get (headers resp) "Retry-After" with
  | Some s => RaStr s
  | None => RaNone
  end.

(* ================================================================== *)
(** ** pathlib *)
(* ================================================================== *)

(** [name.rfind('.')] as a split: [(name[:i], name[i:])]. *)
Fixpoint rsplit_dot (s : string) : option (string * string) :=
  match s with
  | EmptyString => None
  | String c r =>
      match rsplit_dot r with
      | Some (stem, suf) => Some (String c stem, suf)
      | None => if Ascii.eqb c "." then Some (EmptyString, s) else None
      end
  end.

(** [(stem, suffix)] of a file name: the suffix starts at the last dot,
    unless that dot is the first or the last character. *)
Definition split_suffix (nm : string) : string * string :=
  match rsplit_dot nm with
  | Some (stem, suf) =>
      if str_truthy stem && (1 <? String.length suf)%nat then (stem, suf)
      else (nm, EmptyString)
  | None => (nm, EmptyString)
  end.

(** [PurePath.suffix]. *)
Definition suffix (p : path) : string := snd (split_suffix (name p)).

Definition with_name (p : path) (nm : string) : path := parent p ++ [nm].

(** [PurePath.with_suffix(sfx)] for a suffix that starts with a dot. *)
Definition with_suffix (p : path) (sfx : string) : res path :=
  if negb (str_truthy (name p)) then Raise (Exn ValueError "path has an empty name")
  else Ok (with_name p (fst (split_suffix (name p)) +:+ sfx)).

(** [Path(str(p) + s)] for a text [s] without separators. *)
Definition path_add_str (p : path) (s : string) : path :=
  match p with
  | [] => [s]
  | _ => with_name p (name p +:+ s)
  end.

(** [folder / text]: an absolute text replaces the folder; empty and [.]
    components vanish. *)
Definition path_div (folder : path) (text : string) : path :=
  let comps := List.filter (fun c => str_truthy c && negb (String.eqb c "."))
                           (split_on "/" text) in
  if starts_with "/" text then comps else folder ++ comps.

(** [str(path)]. *)
Definition path_str (p : path) : string :=
  match p with
  | [] => "/"
  | _ => fold_right (fun c acc => "/" +:+ c +:+ acc) EmptyString p
  end.

(* ================================================================== *)
(** ** fileops.py *)
(* ================================================================== *)

(** [temp_part_path(dest)]. *)
Definition temp_part_path (dest : path) : path :=
  if str_truthy (suffix dest) then
    match with_suffix dest (suffix dest +:+ ".part") with
    | Ok p => p
    | Raise _ => path_add_str dest ".part"
    end
  else path_add_str dest ".part".

Definition strip_char (ch : ascii) (s : string) : string :=
  let fix lstrip_char (s : string) : string :=
    match s with
    | String c r => if Ascii.eqb c ch then lstrip_char r else s
    | EmptyString => EmptyString
    end in
  rstrip_char ch (lstrip_char s).

Fixpoint drop_chars (n : nat) (s : string) : string :=
  match n, s with
  | S n', String _ r => drop_chars n' r
  | _, _ => s
  end.

(** The double-quote character. *)
Definition dquote : ascii := ascii_of_nat 34.

(** [s.split(sep, 1)[1]] when [sep] occurs in [s]. *)
Fixpoint after_first (sep s : string) : option string :=
  if starts_with sep s then Some (drop_chars (String.length sep) s)
  else match s with
       | EmptyString => None
       | String _ r => after_first sep r
       end.

(** The loop over the parameters of a Content-Disposition header. *)
Fixpoint content_disposition_filename (parts : list string) : option string :=
  match parts with
  | [] => None
  | p :: rest =>
      if negb (contains "=" p) then content_disposition_filename rest
      else
        let sp := strip p in
        let k := lower (before_first "=" sp) in
        let v := strip_char dquote (strip (default EmptyString (after_first "=" sp))) in
        if String.eqb k "filename*" then
          Some (match after_first "''" v with Some t => t | None => v end)
        else if String.eqb k "filename" then Some v
        else content_disposition_filename rest
  end.

(** [get_filename_from_content_disposition(header_value)]. *)
Definition get_filename_from_content_disposition (header_value : option string)
  : option string :=
  match header_value with
  | None => None
  | Some h =>
      if negb (str_truthy h) then None
      else match content_disposition_filename (split_on ";" h) with
           | Some f => if str_truthy f then Some (basename f) else None
           | None => None
           end
  end.

(** [get_filename_from_response(resp, fallback_url)]. *)
Definition get_filename_from_response (resp : Response) (fallback_url : option string)
  : option string :=
  match get_filename_from_content_disposition (headers_get (headers resp) "Content-Disposition") with
  | Some f =>
      if str_truthy f then Some f
      else
        let url := match fallback_url with
                   | Some u => if str_truthy u then u else resp_url resp
                   | None => resp_url resp
                   end in
        if str_truthy url then
          let b := basename (rstrip_char "/" (before_first "?" url)) in
          if str_truthy b then Some b else None
        else None
  | None =>
      let url := match fallback_url with
                 | Some u => if str_truthy u then u else resp_url resp
                 | None => resp_url resp
                 end in
      if str_truthy url then
        let b := basename (rstrip_char "/" (before_first "?" url)) in
        if str_truthy b then Some b else None
      else None
  end.

(** [sha1_sum(path)] and its siblings: the digest of a regular file; a
    directory makes [open] raise. *)
Definition file_digest (h : bytes -> string) (fs : FS) (p : path) : res string :=
  match fs !! p with
  | Some (File d) => Ok (h d)
  | Some Dir => Raise (Exn IsADirectoryError "is a directory")
  | None => Raise (Exn FileNotFoundError "File not found")
  end.

(** [try: computed[k] = digest(path)  except Exception: computed[k] = EMPTY]. *)
Definition digest_or_empty (r : res string) : string :=
  match r with Ok s => s | Raise _ => EmptyString end.

(** The dictionary [computed] of [is_same_file]: it always has exactly the
    keys [sha1], [sha256] and [md5]. *)
Record digests : Type := { d_sha1 : string; d_sha256 : string; d_md5 : string }.

(** [computed.get(algo)]. *)
Definition digests_get (c : digests) (algo : string) : option string :=
  if String.eqb algo "sha1" then Some (d_sha1 c)
  else if String.eqb algo "sha256" then Some (d_sha256 c)
  else if String.eqb algo "md5" then Some (d_md5 c)
  else None.

Definition computed_hashes (env : Env) (fs : FS) (p : path) : digests :=
  {| d_sha1 := digest_or_empty (file_digest (sha1_hex env) fs p);
     d_sha256 := digest_or_empty (file_digest (sha256_hex env) fs p);
     d_md5 := digest_or_empty (file_digest (md5_hex env) fs p) |}.

(** [{k.lower(): v.lower() for k, v in expected_hashes.items() if v}]:
    later entries replace earlier ones with the same lower-cased key; a
    truthy value that is not a string has no [lower]. *)
Fixpoint norm_expected_from (acc : gmap string string) (items : dict json)
  : res (gmap string string) :=
  match items with
  | [] => Ok acc
  | (k, v) :: r =>
      if truthy v then
        match v with
        | JStr s => norm_expected_from (<[lower k := lower s]> acc) r
        | _ => Raise (Exn AttributeError "object has no attribute 'lower'")
        end
      else norm_expected_from acc r
  end.

Definition norm_expected (items : dict json) : res (gmap string string) :=
  norm_expected_from ∅ items.

(** The test of the final loop of [is_same_file] for one normalised entry:
    [actual and actual.lower() == expected.lower()]. *)
Definition digest_hit (computed : digests) (algo expected : string) : bool :=
  match digests_get computed algo with
  | Some actual => str_truthy actual && String.eqb (lower actual) (lower expected)
  | None => false
  end.

(** [is_same_file(local_path, expected_hashes)]. *)
Definition is_same_file (env : Env) (fs : FS) (local_path : path)
    (expected_hashes : option (dict json)) : res (bool * digests) :=
  if negb (fs_exists fs local_path) then
    Raise (Exn FileNotFoundError ("File not found: " +:+ path_str local_path))
  else
    let computed := computed_hashes env fs local_path in
    match expected_hashes with
    | None => Ok (false, computed)
    | Some [] => Ok (false, computed)
    | Some items =>
        match norm_expected items with
        | Raise e => Raise e
        | Ok norm =>
            Ok (bool_decide (map_Exists (fun algo expected =>
                                           digest_hit computed algo expected = true) norm),
                computed)
        end
    end.

(** [OSError] and its subclasses. *)
Definition is_oserror (k : exn_kind) : bool :=
  match k with
  | OSError | FileNotFoundError | FileExistsError | NotADirectoryError
  | IsADirectoryError | ConnectionError => true
  | _ => false
  end.

(** One pass of the body of the loop of [safe_remove]. *)
Definition remove_once (p : path) : M unit :=
  fs <- get_fs ;;
  if fs_is_dir fs p then on_fs (fs_rmtree p)
  else if fs_exists fs p then on_fs (fs_unlink p)
  else ret tt.

(** The loop of [safe_remove]; [fuel] bounds the passes, of which there are
    at most [retries + 1]. *)
Fixpoint safe_remove_loop (fuel : nat) (p : path) (retries attempt : Z) (delay : Q)
  : M unit :=
  match fuel with
  | O => raise (Exn OSError "safe_remove")
  | S fuel' =>
      try_except (remove_once p)
        (fun exc =>
           if bool_decide (exn_kind_of exc = FileNotFoundError) then ret tt
           else if is_oserror (exn_kind_of exc) then
             let attempt' := attempt + 1 in
             if retries <? attempt' then raise exc
             else time_sleep delay ;;; safe_remove_loop fuel' p retries attempt' delay
           else raise exc)
  end.

(** [safe_remove(path)] with the defaults [retries=3], [delay=0.2]. *)
Definition safe_remove (p : path) : M unit :=
  safe_remove_loop 4 p 3 0 (1 # 5).

(** *** atomic_write *)

(** The operating system may refuse any single call for reasons outside the
    file-system model (I/O error, permissions, a lock held by another
    process).  A fault plan says which calls of one run of [atomic_write]
    are refused, and which name [tempfile.mkstemp] draws. *)
Record os_faults : Type := {
  f_mkdir : bool;
  f_mkstemp : bool;
  tmp_random : string;
  f_write_at : option nat;   (* index of the [f.write] call that raises *)
  f_close : bool;
  f_replace : bool;
  f_unlink_dest : bool;
  f_move : bool;
  f_unlink_tmp : bool
}.

Definition no_faults : os_faults :=
  {| f_mkdir := false; f_mkstemp := false; tmp_random := "00000000";
     f_write_at := None; f_close := false; f_replace := false;
     f_unlink_dest := false; f_move := false; f_unlink_tmp := false |}.

Definition faulty {A} (refused : bool) (call : string) (op : M A) : M A :=
  if refused then raise (Exn OSError call) else op.

(** [tempfile.mkstemp(dir=d, suffix=sfx)].  The drawn name is fresh in
    reality; a clash is rendered as the failure the library reports when it
    finds no usable name. *)
Definition mkstemp (o : os_faults) (d : path) (sfx : string) : M path :=
  faulty (f_mkstemp o) "mkstemp"
    (fs <- get_fs ;;
     let tmp := d ++ ["tmp" +:+ tmp_random o +:+ sfx] in
     if negb (fs_is_dir fs d) then raise (Exn FileNotFoundError "mkstemp: no such directory")
     else if fs_exists fs tmp then raise (Exn FileExistsError "mkstemp: no usable name")
     else set_fs (<[tmp := File []]> fs) ;;; ret tmp).

(** [f.write(b)], the [idx]-th write of the run. *)
Definition write_at (o : os_faults) (tmp : path) (idx : nat) (b : bytes) : M unit :=
  faulty (bool_decide (f_write_at o = Some idx)) "write"
    (on_fs (fun fs => (fs_append tmp b fs, Ok tt))).

(** [for chunk in chunks: if not chunk: continue; f.write(chunk)]. *)
Fixpoint write_chunks (o : os_faults) (tmp : path) (idx : nat) (chunks : list stream_item)
  : M unit :=
  match chunks with
  | [] => ret tt
  | StreamError msg :: _ => raise (Exn ConnectionError msg)
  | Chunk [] :: r => write_chunks o tmp idx r
  | Chunk b :: r => write_at o tmp idx b ;;; write_chunks o tmp (S idx) r
  end.

(** [if tmp.exists(): try: tmp.unlink() except Exception: pass]. *)
Definition cleanup_tmp (o : os_faults) (tmp : path) : M unit :=
  fs <- get_fs ;;
  if fs_exists fs tmp then
    try_except (faulty (f_unlink_tmp o) "unlink" (on_fs (fs_unlink tmp))) (fun _ => ret tt)
  else ret tt.

(** [atomic_write(dest_path, data, chunks, tmp_suffix=...)] in the default
    binary mode. *)
Definition atomic_write (o : os_faults) (dest_path : path)
    (data : option bytes) (chunks : option (list stream_item))
    (tmp_suffix : option string) : M path :=
  let dest_dir := parent dest_path in
  let failed (exc : exn) : exn :=
    Exn DownloadError ("atomic_write failed for " +:+ path_str dest_path +:+ ": " +:+ exn_msg exc) in
  faulty (f_mkdir o) "mkdir" (on_fs (fs_mkdir_p dest_dir)) ;;;
  match data, chunks with
  | None, None | Some _, Some _ =>
      raise (Exn ValueError "Provide exactly one of `data` or `chunks`.")
  | _, _ =>
      let sfx := match tmp_suffix with
                 | Some s => if str_truthy s then s else ".tmp"
                 | None => ".tmp"
                 end in
      tmp <- try_except (mkstemp o dest_dir sfx) (fun exc => raise (failed exc)) ;;
      try_except
        ((match data with
          | Some d => write_at o tmp 0 d
          | None => write_chunks o tmp 0 (default [] chunks)
          end) ;;;
         faulty (f_close o) "close" (ret tt) ;;;
         try_except (faulty (f_replace o) "replace" (on_fs (fs_replace tmp dest_path)))
           (fun _ =>
              try_except
                (fs <- get_fs ;;
                 (if fs_exists fs dest_path
                  then faulty (f_unlink_dest o) "unlink" (on_fs (fs_unlink dest_path))
                  else ret tt) ;;;
                 faulty (f_move o) "move" (on_fs (fs_move tmp dest_path)))
                (fun e2 =>
                   cleanup_tmp o tmp ;;;
                   raise (Exn DownloadError
                            ("Failed to move temp file to destination: " +:+ exn_msg e2)))) ;;;
         ret dest_path)
        (fun exc => cleanup_tmp o tmp ;;; raise (failed exc))
  end.

(** *** write_stream_to_tempfile *)

(** [for chunk in resp.iter_content(...): if chunk: f.write(chunk)]. *)
Fixpoint stream_to (part : path) (items : list stream_item) : M unit :=
  match items with
  | [] => ret tt
  | StreamError msg :: _ => raise (Exn ConnectionError msg)
  | Chunk b :: r => on_fs (fun fs => (fs_append part b fs, Ok tt)) ;;; stream_to part r
  end.

(** [write_stream_to_tempfile(resp, dest, progress_cb=None, resume=...)].
    The progress callback, and the total it would be told, are left out:
    the installer passes no callback. *)
Definition write_stream_to_tempfile (resp : Response) (dest : path) (resume : bool)
  : M path :=
  on_fs (fs_mkdir_p (parent dest)) ;;;
  let part := temp_part_path dest in
  fs <- get_fs ;;
  let append := resume && fs_exists fs part in
  try_except
    (on_fs (fs_open append part) ;;;
     stream_to part (content resp) ;;;
     (* the "placeholder" call *)
     atomic_write no_faults dest None None None ;;;
     ret tt)
    (fun exc =>
       if bool_decide (exn_kind_of exc = DownloadError) then raise exc
       else raise (Exn DownloadError
                     ("Failed writing stream to temp file " +:+ path_str part +:+ ": "
                      +:+ exn_msg exc))) ;;;
  try_except (on_fs (fs_replace part dest))
    (fun _ =>
       try_except
         (fs1 <- get_fs ;;
          (if fs_exists fs1 dest then on_fs (fs_unlink dest) else ret tt) ;;;
          on_fs (fs_move part dest))
         (fun exc =>
            fs2 <- get_fs ;;
            (if fs_exists fs2 part
             then try_except (on_fs (fs_unlink part)) (fun _ => ret tt)
             else ret tt) ;;;
            raise (Exn DownloadError
                     ("Failed promoting part file to final destination: " +:+ exn_msg exc)))) ;;;
  ret dest.

(* ================================================================== *)
(** ** download.py *)
(* ================================================================== *)

Record DownloadResult : Type := {
  dr_url : string;
  dr_path : option path;
  dr_success : bool;
  dr_attempts : Z;
  dr_bytes : Z;
  dr_error : option string
}.

(** [DownloadManager]: the fields the download methods read. *)
Record DownloadManager : Type := {
  dm_max_retries : Z;
  dm_backoff_base : Q
}.

(** [DownloadManager(max_retries=m, backoff_base=b)]. *)
Definition DownloadManager_init (max_retries : Z) (backoff_base : Q) : DownloadManager :=
  {| dm_max_retries := Z.max 1 max_retries; dm_backoff_base := backoff_base |}.

(** [part.stat().st_size]. *)
Definition st_size (fs : FS) (p : path) : Z :=
  match fs !! p with
  | Some (File d) => Z.of_nat (length d)
  | _ => 0
  end.

Definition failure (url : string) (p : option path) (written : Z) (err : string)
  : DownloadResult :=
  {| dr_url := url; dr_path := p; dr_success := false; dr_attempts := 1;
     dr_bytes := written; dr_error := Some err |}.

Definition http_error_text (resp : Response) : string :=
  "HTTP " +:+ pretty (status_code resp) +:+ ": " +:+ reason resp.

(** The streaming loop of [_attempt_download]; it returns the byte count
    reached, and the exception if the stream broke. *)
Fixpoint stream_counting (part : path) (items : list stream_item) (written : Z)
  : M (Z * option exn) :=
  match items with
  | [] => ret (written, None)
  | StreamError msg :: _ => ret (written, Some (Exn ConnectionError msg))
  | Chunk [] :: r => stream_counting part r written
  | Chunk b :: r =>
      on_fs (fun fs => (fs_append part b fs, Ok tt)) ;;;
      stream_counting part r (written + Z.of_nat (length b))
  end.

(** [_attempt_download(url, dest_path, expected_hashes, resume=...)] without
    a progress callback (its exceptions are swallowed by the source). *)
Definition _attempt_download (env : Env) (url : string) (dest_path : path)
    (expected_hashes : option (dict json)) (resume : bool) : M DownloadResult :=
  on_fs (fs_mkdir_p (parent dest_path)) ;;;
  let part := temp_part_path dest_path in
  fs <- get_fs ;;
  let resuming := resume && fs_exists fs part in
  let existing_size := if resuming then st_size fs part else 0 in
  let hdrs : dict string :=
    if resuming then [("Range", "bytes=" +:+ pretty existing_size +:+ "-")] else [] in
  got <- try_except (r <- http_get env url hdrs ;; ret (Ok r)) (fun e => ret (Raise e)) ;;
  match got with
  | Raise e => ret (failure url None 0 (exn_msg e))
  | Ok resp =>
     if bool_decide (status_code resp = 404 \/ status_code resp = 410) then
       ret (failure url None 0 (http_error_text resp))
     else if status_code resp =? 416 then
       try_except (safe_remove part) (fun _ => ret tt) ;;;
       ret (failure url None 0
              "416 Range Not Satisfiable: removed local .part; retrying fresh recommended")
     else if status_code resp =? 429 then
       now <- time_time ;;
       let ra := parse_retry_after env now (retry_after_header resp) in
       ret (failure url None 0 ("429 Rate limited; retry-after=" +:+ float_str env ra))
     else if 400 <=? status_code resp then
       ret (failure url None 0 (http_error_text resp))
     else
       let dest_path :=
         match get_filename_from_response resp (Some url) with
         | Some filename =>
             if str_truthy filename && negb (str_truthy (name dest_path))
             then path_div (parent dest_path) filename else dest_path
         | None => dest_path
         end in
       let append := negb (existing_size =? 0) && resume in
       let written := existing_size in
       (* try: open, stream, promote;  except Exception: failure, part kept *)
       opened <- try_except (on_fs (fs_open append part) ;;; ret (@None exn))
                            (fun exc => ret (Some exc)) ;;
       match opened with
       | Some exc => ret (failure url None written (exn_msg exc))
       | None =>
           streamed <- stream_counting part (content resp) written ;;
           let written := fst streamed in
           match snd streamed with
           | Some exc => ret (failure url None written (exn_msg exc))
           | None =>
               promoted <-
                 try_except
                   (try_except (on_fs (fs_replace part dest_path))
                      (fun _ =>
                         fs1 <- get_fs ;;
                         (if fs_exists fs1 dest_path
                          then try_except (on_fs (fs_unlink dest_path)) (fun _ => ret tt)
                          else ret tt) ;;;
                         on_fs (fs_move part dest_path)) ;;;
                    ret (@None exn))
                   (fun exc => ret (Some exc)) ;;
               match promoted with
               | Some exc => ret (failure url None written (exn_msg exc))
               | None =>
                   (* verify checksums if provided *)
                   match expected_hashes with
                   | Some (_ :: _) =>
                       fs2 <- get_fs ;;
                       match is_same_file env fs2 dest_path expected_hashes with
                       | Ok (true, _) =>
                           ret {| dr_url := url; dr_path := Some dest_path;
                                  dr_success := true; dr_attempts := 1;
                                  dr_bytes := written; dr_error := None |}
                       | Ok (false, _) =>
                           try_except (safe_remove dest_path) (fun _ => ret tt) ;;;
                           ret (failure url (Some dest_path) written
                                  "Checksum mismatch after download")
                       | Raise exc =>
                           ret (failure url (Some dest_path) written
                                  ("Checksum verification error: " +:+ exn_msg exc))
                       end
                   | _ =>
                       ret {| dr_url := url; dr_path := Some dest_path;
                              dr_success := true; dr_attempts := 1;
                              dr_bytes := written; dr_error := None |}
                   end
               end
           end
       end
  end.

(** Python truth value of an optional text. *)
Definition opt_truthy (o : option string) : bool :=
  match o with Some s => str_truthy s | None => false end.

(** [a or b] on optional texts. *)
Definition opt_or (a b : option string) : option string :=
  if opt_truthy a then a else b.

(** [err and sub in err]. *)
Definition error_has (sub : string) (err : option string) : bool :=
  match err with
  | Some e => str_truthy e && contains sub e
  | None => false
  end.

Definition with_attempts (r : DownloadResult) (n : Z) : DownloadResult :=
  {| dr_url := dr_url r; dr_path := dr_path r; dr_success := dr_success r;
     dr_attempts := n; dr_bytes := dr_bytes r; dr_error := dr_error r |}.

Definition with_error (r : DownloadResult) (e : option string) : DownloadResult :=
  {| dr_url := dr_url r; dr_path := dr_path r; dr_success := dr_success r;
     dr_attempts := dr_attempts r; dr_bytes := dr_bytes r; dr_error := e |}.

(** [ra_val if ra_val and ra_val > 0 else exponential_backoff(attempt, base)]. *)
Definition retry_wait (env : Env) (ra : Q) (attempt : Z) (base : Q) : M Q :=
  if Qlt_le_dec 0 ra then ret ra else exponential_backoff env attempt base.

(** The [while attempts < max_attempts] loop of [download_url_to_folder].
    [fuel] is the number of iterations left; [result] is the variable of
    that name, unbound until the first attempt has returned. *)
Fixpoint download_loop (env : Env) (self : DownloadManager)
    (url : string) (dest_path : path) (expected_hashes : option (dict json))
    (resume : bool) (fuel : nat) (attempts : Z)
    (result : option DownloadResult) (last_err : option string) : M DownloadResult :=
  match fuel with
  | O =>
      (* exhausted attempts *)
      match result with
      | None => raise (Exn UnboundLocalError "local variable 'result' referenced before assignment")
      | Some result =>
          let result := with_attempts result attempts in
          if negb (dr_success result) then
            ret (with_error result
                   (opt_or (opt_or (dr_error result) last_err)
                           (Some "Unknown download failure")))
          else ret result
      end
  | S fuel' =>
      let attempts := attempts + 1 in
      result <- _attempt_download env url dest_path expected_hashes resume ;;
      if dr_success result then ret (with_attempts result attempts)
      else if error_has "429" (dr_error result) then
        now <- time_time ;;
        let ra_val := parse_retry_after env now
                        (match dr_error result with Some e => RaStr e | None => RaNone end) in
        wait <- retry_wait env ra_val attempts (dm_backoff_base self) ;;
        time_sleep wait ;;;
        download_loop env self url dest_path expected_hashes resume fuel' attempts
                      (Some result) last_err
      else if error_has "416" (dr_error result)
              || error_has "Checksum mismatch" (dr_error result) then
        let part := temp_part_path dest_path in
        try_except (fs <- get_fs ;; if fs_exists fs part then safe_remove part else ret tt)
                   (fun _ => ret tt) ;;;
        wait <- exponential_backoff env attempts (dm_backoff_base self) ;;
        time_sleep wait ;;;
        download_loop env self url dest_path expected_hashes resume fuel' attempts
                      (Some result) last_err
      else
        wait <- exponential_backoff env attempts (dm_backoff_base self) ;;
        time_sleep wait ;;;
        download_loop env self url dest_path expected_hashes resume fuel' attempts
                      (Some result) (dr_error result)
  end.

(** [max_retries or self.max_retries]. *)
Definition max_attempts_of (self : DownloadManager) (max_retries : option Z) : Z :=
  match max_retries with
  | Some n => if n =? 0 then dm_max_retries self else n
  | None => dm_max_retries self
  end.

(** The tentative destination of [download_url_to_folder]. *)
Definition tentative_dest (folder : path) (filename : option string) (url : string)
    (now : Q) : path :=
  if opt_truthy filename then path_div folder (default EmptyString filename)
  else
    let b := basename (before_first "?" url) in
    path_div folder (if str_truthy b then b else "download-" +:+ pretty (Qfloor now)).

(** [download_url_to_folder(url, folder, filename=..., expected_hashes=...,
    max_retries=..., resume=...)]. *)
Definition download_url_to_folder (env : Env) (self : DownloadManager)
    (url : string) (folder : path) (filename : option string)
    (expected_hashes : option (dict json)) (max_retries : option Z) (resume : bool)
  : M DownloadResult :=
  on_fs (fs_mkdir_p folder) ;;;
  let max_attempts := max_attempts_of self max_retries in
  now <- time_time ;;
  let dest_path := tentative_dest folder filename url now in
  download_loop env self url dest_path expected_hashes resume
                (Z.to_nat max_attempts) 0 None None.

(* ================================================================== *)
(** ** paths.py: InstallPaths *)
(* ================================================================== *)

Record InstallPaths : Type := {
  instance_root : path;
  mods_dir : path;
  resourcepacks_dir : path;
  shaderpacks_dir : path;
  config_dir : path;
  overrides_dir : path;
  saves_dir : path;
  logs_dir : option path
}.

(** [InstallPaths.from_custom(instance_root)]; the root is given resolved. *)
Definition from_custom (root : path) : InstallPaths :=
  {| instance_root := root;
     mods_dir := root ++ ["mods"];
     resourcepacks_dir := root ++ ["resourcepacks"];
     shaderpacks_dir := root ++ ["shaderpacks"];
     config_dir := root ++ ["config"];
     overrides_dir := root ++ ["overrides"];
     saves_dir := root ++ ["saves"];
     logs_dir := Some (root ++ ["logs"]) |}.

(** [_ensure_dir(path)]. *)
Definition _ensure_dir (p : path) : M unit := on_fs (fs_mkdir_p p).

(** [InstallPaths.ensure_dirs()]. *)
Definition ensure_dirs (ip : InstallPaths) : M unit :=
  _ensure_dir (instance_root ip) ;;;
  _ensure_dir (mods_dir ip) ;;;
  _ensure_dir (resourcepacks_dir ip) ;;;
  _ensure_dir (shaderpacks_dir ip) ;;;
  _ensure_dir (config_dir ip) ;;;
  _ensure_dir (overrides_dir ip) ;;;
  _ensure_dir (saves_dir ip) ;;;
  match logs_dir ip with
  | Some l => _ensure_dir l
  | None => ret tt
  end.

(* ================================================================== *)
(** ** installer.py *)
(* ================================================================== *)

Record InstallItem : Type := {
  project_id : Z;
  file_id : Z;
  required : bool;
  remote_file_name : option string;
  download_url : option string;
  expected_hashes : dict json;
  target_folder : option path;
  target_path : option path;
  size_bytes : option Z;
  metadata : dict json
}.

Record InstallResult : Type := {
  item : InstallItem;
  success : bool;
  result_path : option path;
  downloaded_bytes : Z;
  attempts : Z;
  error : option string;
  checksum_ok : option bool
}.

Record ModPackInstallReport : Type := {
  manifest_name : json;
  manifest_version : json;
  total_files : Z;
  successful : Z;
  failed : Z;
  results : list InstallResult;
  backups : list path;
  time_elapsed : Q;
  report_success : bool
}.

(** The external API client.  A method the object does not have
    ([hasattr] is false) is [None]; a method returns a value or raises. *)
Record Client : Type := {
  get_mod_file : option (Z -> Z -> res json);
  get_file : option (Z -> Z -> res json);
  get_modfile : option (Z -> Z -> res json);
  get_file_download_url : option (Z -> Z -> res (option string));
  get_file_download_link : option (Z -> Z -> res (option string))
}.

(** [ModPackInstaller]: the fields set by [__init__]. *)
Record ModPackInstaller : Type := {
  client : Client;
  concurrency : Z;
  max_retries : Z;
  backoff_base : Q;
  backup_on_failure : bool
}.

(** [ModPackInstaller(client, concurrency=..., max_retries=...,
    backoff_base=..., backup_on_failure=...)]. *)
Definition ModPackInstaller_init (c : Client) (concurrency max_retries : Z)
    (backoff_base : Q) (backup_on_failure : bool) : ModPackInstaller :=
  {| client := c;
     concurrency := Z.max 1 concurrency;
     max_retries := Z.max 1 max_retries;
     backoff_base := backoff_base;
     backup_on_failure := backup_on_failure |}.

(** A call of a client method, recorded in the trace. *)
Definition call_client {A} (method : string) (f : Z -> Z -> res A) (pid fid : Z) : M A :=
  log (EvClient method pid fid) ;;; lift_res (f pid fid).

(** The three-way [or] of the manifest keys. *)
Definition entry_project (entry : dict json) : json :=
  py_or (py_or (jget entry "projectID") (jget entry "projectId")) (jget entry "project").

Definition entry_file (entry : dict json) : json :=
  py_or (py_or (jget entry "fileID") (jget entry "fileId")) (jget entry "file").

(** [bool(entry.get("required", True))]. *)
Definition entry_required (entry : dict json) : bool :=
  match dict_get entry "required" with
  | Some v => truthy v
  | None => true
  end.

(** The metadata lookup of the planner, inside its [try/except]. *)
Definition fetch_metadata (c : Client) (pid fid : Z) : M json :=
  try_except
    (match get_mod_file c, get_file c, get_modfile c with
     | Some fn, _, _ => call_client "get_mod_file" fn pid fid
     | None, Some fn, _ => call_client "get_file" fn pid fid
     | None, None, Some fn => call_client "get_modfile" fn pid fid
     | None, None, None => ret JNull
     end)
    (fun _ => ret JNull).

(** The loop over a list of hash objects. *)
Fixpoint hashes_of_list (acc : dict json) (l : list json) : res (dict json) :=
  match l with
  | [] => Ok acc
  | JDict h :: r =>
      let algo := py_or (jget h "algorithm") (jget h "algo") in
      let value := py_or (jget h "value") (jget h "hash") in
      if truthy algo && truthy value then
        match algo with
        | JStr a => hashes_of_list (dict_set acc (lower a) value) r
        | _ => Raise (Exn AttributeError "object has no attribute 'lower'")
        end
      else hashes_of_list acc r
  | _ :: _ => Raise (Exn AttributeError "object has no attribute 'get'")
  end.

(** [hashes.update(d.items())] on an empty [hashes]. *)
Definition hashes_of_metadata (md : dict json) : res (dict json) :=
  let h := jget md "hashes" in
  if truthy h then
    match h with
    | JDict d => Ok (fold_left (fun acc kv => dict_set acc (fst kv) (snd kv)) d [])
    | JList l => hashes_of_list [] l
    | _ => Ok []
    end
  else Ok [].

(** The size read from the metadata, inside its [try/except]. *)
Definition size_of_metadata (md : dict json) : option Z :=
  let v := jget md "fileSize" in
  if truthy v then match py_int v with Ok z => Some z | Raise _ => None end
  else None.

(** The URL lookup of the planner, inside its [try/except]. *)
Definition fetch_download_url (c : Client) (pid fid : Z) : M (option string) :=
  try_except
    (match get_file_download_url c, get_file_download_link c with
     | Some fn, _ => call_client "get_file_download_url" fn pid fid
     | None, Some fn => call_client "get_file_download_link" fn pid fid
     | None, None => ret None
     end)
    (fun _ => ret None).

(** One iteration of the loop of [build_plan_from_manifest]: [None] is the
    [continue] of a malformed entry. *)
Definition plan_entry (self : ModPackInstaller) (install_paths : InstallPaths)
    (entry : dict json) : M (option InstallItem) :=
  let projectID := entry_project entry in
  let fileID := entry_file entry in
  let required := entry_required entry in
  match projectID, fileID with
  | JNull, _ | _, JNull => ret None
  | _, _ =>
      pid <- lift_res (py_int projectID) ;;
      fid <- lift_res (py_int fileID) ;;
      md <- fetch_metadata (client self) pid fid ;;
      (* If metadata is dict-like and has hashes / fileName *)
      from_md <-
        match md with
        | JDict d =>
            hs <- lift_res (hashes_of_metadata d) ;;
            ret (d, py_or (jget d "fileName") (jget d "displayName"), hs, size_of_metadata d)
        | _ => ret ([], JNull, [], None)
        end ;;
      let '(md_dict, name_v, hashes, size) := from_md in
      url <- fetch_download_url (client self) pid fid ;;
      let folder := mods_dir install_paths in
      (* determine filename *)
      let name_v :=
        if negb (truthy name_v) && opt_truthy url then
          let b := List.last (split_on "/" (rstrip_char "/" (before_first "?" (default EmptyString url))))
                             EmptyString in
          if str_truthy b then JStr b else name_v
        else name_v in
      (* compute target path *)
      if truthy name_v then
        match name_v with
        | JStr n =>
            ret (Some {| project_id := pid; file_id := fid; required := required;
                         remote_file_name := Some n; download_url := url;
                         expected_hashes := hashes; target_folder := Some folder;
                         target_path := Some (path_div folder (basename n));
                         size_bytes := size; metadata := md_dict |})
        | _ => raise (Exn TypeError "expected str, bytes or os.PathLike object")
        end
      else
        let n := pretty pid +:+ "-" +:+ pretty fid +:+ ".jar" in
        ret (Some {| project_id := pid; file_id := fid; required := required;
                     remote_file_name := Some n; download_url := url;
                     expected_hashes := hashes; target_folder := Some folder;
                     target_path := Some (path_div folder n);
                     size_bytes := size; metadata := md_dict |})
  end.

(** The loop of [build_plan_from_manifest] over the entries. *)
Fixpoint plan_entries (self : ModPackInstaller) (install_paths : InstallPaths)
    (entries : list json) : M (list InstallItem) :=
  match entries with
  | [] => ret []
  | JDict entry :: rest =>
      planned <- plan_entry self install_paths entry ;;
      items <- plan_entries self install_paths rest ;;
      ret (match planned with Some it => it :: items | None => items end)
  | _ :: _ => raise (Exn AttributeError "object has no attribute 'get'")
  end.

(** [build_plan_from_manifest(manifest, install_paths)]. *)
Definition build_plan_from_manifest (self : ModPackInstaller) (manifest : dict json)
    (install_paths : InstallPaths) : M (list InstallItem) :=
  let files := py_or (jget manifest "files") (JList []) in
  match files with
  | JList entries => plan_entries self install_paths entries
  | JDict _ | JStr _ => raise (Exn AttributeError "object has no attribute 'get'")
  | _ => raise (Exn TypeError "object is not iterable")
  end.

(** What [install_from_manifest] is given as [manifest_source]. *)
Inductive manifest_source : Type :=
| SrcDict (manifest : dict json)
| SrcPath (p : path).

(** [_load_manifest(manifest_source)]. *)
Definition _load_manifest (env : Env) (source : manifest_source)
  : M (dict json * option path) :=
  match source with
  | SrcDict m => ret (m, None)
  | SrcPath p =>
      fs <- get_fs ;;
      if negb (fs_exists fs p) then
        raise (Exn ManifestError ("Manifest source not found: " +:+ path_str p))
      else on_fs (fun fs => decode_manifest env fs p)
  end.

(** *** The per-item download task *)

(** The local variables of [_download_task] that outlive an attempt. *)
Record task_state : Type := {
  ts_item : InstallItem;
  ts_downloaded_bytes : Z;
  ts_checksum_ok : option bool
}.

Definition set_download_url (it : InstallItem) (u : option string) : InstallItem :=
  {| project_id := project_id it; file_id := file_id it; required := required it;
     remote_file_name := remote_file_name it; download_url := u;
     expected_hashes := expected_hashes it; target_folder := target_folder it;
     target_path := target_path it; size_bytes := size_bytes it;
     metadata := metadata it |}.

Definition set_file_name (it : InstallItem) (fn : string) (tp : path) : InstallItem :=
  {| project_id := project_id it; file_id := file_id it; required := required it;
     remote_file_name := Some fn; download_url := download_url it;
     expected_hashes := expected_hashes it; target_folder := target_folder it;
     target_path := Some tp; size_bytes := size_bytes it;
     metadata := metadata it |}.

(** An action whose exception is handed back as a value. *)
Definition attempt {A} (m : M A) : M (res A) :=
  try_except (a <- m ;; ret (Ok a)) (fun e => ret (Raise e)).

(** [meta.get("downloadUrl")] as a URL. *)
Definition metadata_url (md : dict json) : res (option string) :=
  let v := jget md "downloadUrl" in
  if truthy v then
    match v with
    | JStr s => Ok (Some s)
    | _ => Raise (Exn TypeError "invalid URL")
    end
  else Ok None.

(** The check of the digest after a download, with its own [try/except]. *)
Definition verify_download (env : Env) (it : InstallItem) (written_path : path)
  : M (option bool * res unit) :=
  let on_error (checksum : option bool) (ex : exn) : M (option bool * res unit) :=
    cleaned <- attempt (safe_remove written_path) ;;
    match cleaned with
    | Raise e => ret (checksum, Raise e)
    | Ok _ => ret (checksum,
                   Raise (Exn DownloadError ("Checksum verification error: " +:+ exn_msg ex)))
    end in
  match expected_hashes it with
  | [] => ret (None, Ok tt)
  | hashes =>
      fs <- get_fs ;;
      match is_same_file env fs written_path (Some hashes) with
      | Raise ex => on_error None ex
      | Ok (true, _) => ret (Some true, Ok tt)
      | Ok (false, _) =>
          removed <- attempt (safe_remove written_path) ;;
          match removed with
          | Raise ex => on_error (Some false) ex
          | Ok _ => on_error (Some false) (Exn DownloadError "Checksum mismatch after download")
          end
      end
  end.

(** The body of the [try] of one attempt: the state it leaves, and the
    written path or the exception that ends the attempt. *)
Definition attempt_body (env : Env) (self : ModPackInstaller) (st : task_state)
    (attempt_no : Z) : M (task_state * res path) :=
  let it := ts_item st in
  let leave (it : InstallItem) (r : res path) : M (task_state * res path) :=
    ret ({| ts_item := it; ts_downloaded_bytes := ts_downloaded_bytes st;
            ts_checksum_ok := ts_checksum_ok st |}, r) in
  (* ensure we have a download_url *)
  resolved <-
    (if opt_truthy (download_url it) then ret (Ok (download_url it))
     else match get_file_download_url (client self) with
          | Some fn => attempt (call_client "get_file_download_url" fn
                                            (project_id it) (file_id it))
          | None => ret (metadata_url (metadata it))
          end) ;;
  match resolved with
  | Raise e => leave it (Raise e)
  | Ok u =>
      let it := set_download_url it u in
      if negb (opt_truthy u) then
        leave it (Raise (Exn DownloadError
                           ("No download URL for " +:+ pretty (project_id it) +:+ "/"
                            +:+ pretty (file_id it))))
      else
        let url := default EmptyString u in
        got <- attempt (http_get env url []) ;;
        match got with
        | Raise e => leave it (Raise e)
        | Ok resp =>
            if 400 <=? status_code resp then
              if status_code resp =? 429 then
                now <- time_time ;;
                let ra := parse_retry_after env now (retry_after_header resp) in
                waited <- attempt (wait <- retry_wait env ra attempt_no (backoff_base self) ;;
                                   time_sleep wait ;;; ret wait) ;;
                match waited with
                | Raise e => leave it (Raise e)
                | Ok wait =>
                    leave it (Raise (Exn DownloadError
                                       ("429 Rate limited; waited " +:+ float_str env wait
                                        +:+ "s then retrying")))
                end
              else
                leave it (Raise (Exn DownloadError
                                   (http_error_text resp +:+ " for URL " +:+ url)))
            else
              (* decide filename if not set *)
              let renamed : res InstallItem :=
                if opt_truthy (remote_file_name it) then Ok it
                else match get_filename_from_response resp (Some url) with
                     | Some fn =>
                         if str_truthy fn then
                           match target_folder it with
                           | Some folder => Ok (set_file_name it fn (path_div folder fn))
                           | None => Raise (Exn TypeError "unsupported operand type(s) for /")
                           end
                         else Ok it
                     | None => Ok it
                     end in
              match renamed with
              | Raise e => leave it (Raise e)
              | Ok it =>
                  let dest : res path :=
                    match target_path it with
                    | Some tp => Ok tp
                    | None =>
                        match target_folder it with
                        | Some folder =>
                            Ok (path_div folder
                                  (if opt_truthy (remote_file_name it)
                                   then default EmptyString (remote_file_name it)
                                   else pretty (project_id it) +:+ "-" +:+ pretty (file_id it)))
                        | None => Raise (Exn TypeError "unsupported operand type(s) for /")
                        end
                    end in
                  match dest with
                  | Raise e => leave it (Raise e)
                  | Ok dest_path =>
                      written <- attempt (on_fs (fs_mkdir_p (parent dest_path)) ;;;
                                          write_stream_to_tempfile resp dest_path true) ;;
                      match written with
                      | Raise e => leave it (Raise e)
                      | Ok written_path =>
                          fs <- get_fs ;;
                          let downloaded :=
                            if fs_exists fs written_path then st_size fs written_path else 0 in
                          verified <- verify_download env it written_path ;;
                          ret ({| ts_item := it; ts_downloaded_bytes := downloaded;
                                  ts_checksum_ok := fst verified |},
                               match snd verified with
                               | Ok _ => Ok written_path
                               | Raise e => Raise e
                               end)
                      end
                  end
              end
        end
  end.

(** How a task ends: with a result, or by raising out of the task. *)
Inductive task_outcome : Type :=
| TaskDone (r : InstallResult)
| TaskRaised (it : InstallItem) (e : exn).

Definition task_result (st : task_state) (ok : bool) (final_path : option path)
    (attempts : Z) (last_err : option string) : InstallResult :=
  {| item := ts_item st;
     success := ok;
     result_path := if ok then final_path else target_path (ts_item st);
     downloaded_bytes := ts_downloaded_bytes st;
     attempts := attempts;
     error := last_err;
     checksum_ok := ts_checksum_ok st |}.

(** [for attempt in range(1, self.max_retries + 1)]: [fuel] attempts are
    left, the next one is number [attempt_no]. *)
Fixpoint retry_loop (env : Env) (self : ModPackInstaller) (fuel : nat)
    (attempt_no : Z) (st : task_state) (attempts : Z) (last_err : option string)
  : M task_outcome :=
  match fuel with
  | O => ret (TaskDone (task_result st false (target_path (ts_item st)) attempts last_err))
  | S fuel' =>
      let attempts := attempt_no in
      tried <- attempt_body env self st attempt_no ;;
      let st := fst tried in
      match snd tried with
      | Ok written_path =>
          (* mark success; exit the retry loop *)
          ret (TaskDone (task_result st true (Some written_path) attempts None))
      | Raise exc =>
          let last_err := Some (exn_msg exc) in
          if attempt_no <? max_retries self then
            waited <- attempt (wait <- exponential_backoff env attempt_no (backoff_base self) ;;
                               time_sleep wait) ;;
            match waited with
            | Raise e => ret (TaskRaised (ts_item st) e)
            | Ok _ => retry_loop env self fuel' (attempt_no + 1) st attempts last_err
            end
          else
            (* exhausted retries *)
            ret (TaskDone (task_result st false (target_path (ts_item st)) attempts last_err))
      end
  end.

(** [_download_task(it)]. *)
Definition _download_task (env : Env) (self : ModPackInstaller) (it : InstallItem)
  : M task_outcome :=
  let final_path := target_path it in
  (* If file already exists and matches expected hash, skip *)
  fs <- get_fs ;;
  let already : bool :=
    match final_path, expected_hashes it with
    | Some fp, _ :: _ =>
        fs_exists fs fp &&
        match is_same_file env fs fp (Some (expected_hashes it)) with
        | Ok (same, _) => same
        | Raise _ => false
        end
    | _, _ => false
    end in
  if already then
    (* [computed.get("size", 0) or 0]: the digests have no size *)
    ret (TaskDone {| item := it; success := true; result_path := final_path;
                     downloaded_bytes := 0; attempts := 0; error := None;
                     checksum_ok := Some true |})
  else
    retry_loop env self (Z.to_nat (max_retries self)) 1
               {| ts_item := it; ts_downloaded_bytes := 0; ts_checksum_ok := None |}
               0 None.

(** What the loop over the futures appends for one item. *)
Definition collect (self : ModPackInstaller) (o : task_outcome) : InstallResult :=
  match o with
  | TaskDone r => r
  | TaskRaised it e =>
      {| item := it; success := false; result_path := None; downloaded_bytes := 0;
         attempts := max_retries self; error := Some (exn_msg e); checksum_ok := None |}
  end.

(** The worker pool.  The tasks are run one after the other in the order
    of the plan, which is one of the schedules the pool admits; the
    progress callback is absent. *)
Fixpoint run_pool (env : Env) (self : ModPackInstaller) (items : list InstallItem)
  : M (list InstallResult) :=
  match items with
  | [] => ret []
  | it :: rest =>
      o <- _download_task env self it ;;
      rs <- run_pool env self rest ;;
      ret (collect self o :: rs)
  end.

(** *** Overrides *)

(** The regular files directly inside directory [d]. *)
Definition child_files (fs : FS) (d : path) : list string :=
  omap (fun kv => match snd kv, strip_prefix d (fst kv) with
                  | File _, Some [f] => Some f
                  | _, _ => None
                  end) (map_to_list fs).

(** [os.walk(top)], as the list of [(relative directory, files)].  The
    listing is taken before the copy starts, in the order of the map. *)
Definition os_walk (fs : FS) (top : path) : list (path * list string) :=
  omap (fun kv => match snd kv, strip_prefix top (fst kv) with
                  | Dir, Some rel => Some (rel, child_files fs (fst kv))
                  | _, _ => None
                  end) (map_to_list fs).

(** The inner loop over the files of one directory. *)
Fixpoint copy_files (src_dir dest_dir : path) (files : list string) : M unit :=
  match files with
  | [] => ret tt
  | f :: rest =>
      let srcf := src_dir ++ [f] in
      let dstf := dest_dir ++ [f] in
      fs <- get_fs ;;
      (if fs_exists fs dstf
       then try_except (on_fs (fs_unlink dstf)) (fun _ => ret tt)
       else ret tt) ;;;
      on_fs (fs_copy2 srcf dstf) ;;;
      copy_files src_dir dest_dir rest
  end.

(** The loop over the directories of the overrides tree. *)
Fixpoint copy_overrides (overrides_source root : path)
    (listing : list (path * list string)) : M unit :=
  match listing with
  | [] => ret tt
  | (rel, files) :: rest =>
      let dest_dir := root ++ rel in
      on_fs (fs_mkdir_p dest_dir) ;;;
      copy_files (overrides_source ++ rel) dest_dir files ;;;
      copy_overrides overrides_source root rest
  end.

(** [Path(text)], resolved against the working directory. *)
Definition path_of_text (env : Env) (text : string) : path := path_div (cwd env) text.

(** The choice of the overrides source. *)
Definition choose_overrides (env : Env) (fs : FS) (source : manifest_source)
    (manifest : dict json) (extracted_overrides : option path) : res (option path) :=
  match extracted_overrides with
  | Some p => Ok (Some p)
  | None =>
      let ov := jget manifest "overrides" in
      if truthy ov then
        match ov with
        | JStr text =>
            let from_base :=
              match source with
              | SrcPath base =>
                  if fs_exists fs base && fs_exists fs (path_div (parent base) text)
                  then Some (path_div (parent base) text) else None
              | SrcDict _ => None
              end in
            match from_base with
            | Some c => Ok (Some c)
            | None => if fs_exists fs (path_of_text env text)
                      then Ok (Some (path_of_text env text)) else Ok None
            end
        | _ => Raise (Exn TypeError "expected str, bytes or os.PathLike object")
        end
      else Ok None
  end.

(** The overrides step with its [try/except]: whether they were applied. *)
Definition apply_overrides (env : Env) (source : manifest_source) (manifest : dict json)
    (extracted_overrides : option path) (root : path) (overwrite : bool) : M bool :=
  try_except
    (fs <- get_fs ;;
     chosen <- lift_res (choose_overrides env fs source manifest extracted_overrides) ;;
     match chosen with
     | Some overrides_source =>
         if fs_exists fs overrides_source && overwrite then
           copy_overrides overrides_source root (os_walk fs overrides_source) ;;;
           ret true
         else ret false
     | None => ret false
     end)
    (fun _ => ret false).

(** *** install_from_manifest *)

(** The backup step with its [try/except]: the backup made, if any.  The
    name of a path has no separator, so [/] appends one component. *)
Definition make_backup (env : Env) (root : path) : M (option path) :=
  try_except
    (let backup_root := parent root ++ [name root +:+ "-backups"] in
     on_fs (fs_mkdir_p backup_root) ;;;
     now <- time_time ;;
     let ts := strftime_stamp env now in
     let backup_dest := backup_root ++ [name root +:+ "-" +:+ ts] in
     on_fs (fs_copytree root backup_dest) ;;;
     ret (Some backup_dest))
    (fun _ => ret None).

(** The placeholder of a dry run. *)
Definition dry_run_result (it : InstallItem) : InstallResult :=
  {| item := it; success := false; result_path := target_path it;
     downloaded_bytes := 0; attempts := 0; error := Some "dry-run";
     checksum_ok := None |}.

(** [for it in items: if it.target_folder: it.target_folder.mkdir(...)]. *)
Fixpoint make_target_folders (items : list InstallItem) : M unit :=
  match items with
  | [] => ret tt
  | it :: rest =>
      (match target_folder it with
       | Some folder => on_fs (fs_mkdir_p folder)
       | None => ret tt
       end) ;;;
      make_target_folders rest
  end.

(** [sum(1 for r in results if r.success)]. *)
Definition count_successful (rs : list InstallResult) : Z :=
  Z.of_nat (length (List.filter success rs)).

(** [sum(1 for r in results if not r.success and r.item.required)]. *)
Definition count_failed (rs : list InstallResult) : Z :=
  Z.of_nat (length (List.filter (fun r => negb (success r) && required (item r)) rs)).

(** The restore of the backup, with its [try/except]. *)
Definition rollback (root backup_path : path) : M unit :=
  try_except (safe_remove root ;;; on_fs (fs_move backup_path root)) (fun _ => ret tt).

(** [if report.failed > 0 and backup_path: ...]. *)
Definition rollback_if_failed (root : path) (backup_path : option path) (n_failed : Z)
  : M unit :=
  match backup_path with
  | Some b => if 0 <? n_failed then rollback root b else ret tt
  | None => ret tt
  end.

(** [if backup_path and report.success and not preserve_backups: ...]. *)
Definition cleanup_backup (backup_path : option path) (n_failed : Z)
    (preserve_backups : bool) : M unit :=
  match backup_path with
  | Some b =>
      if (n_failed =? 0) && negb preserve_backups
      then try_except (safe_remove b) (fun _ => ret tt) else ret tt
  | None => ret tt
  end.

(** [install_from_manifest(manifest_source, instance_root,
    create_instance_dirs=..., overwrite=..., dry_run=...,
    preserve_backups=...)] without a progress callback. *)
Definition install_from_manifest (env : Env) (self : ModPackInstaller)
    (source : manifest_source) (root : path)
    (create_instance_dirs overwrite dry_run preserve_backups : bool)
  : M ModPackInstallReport :=
  start <- time_time ;;
  let install_paths := from_custom root in
  (* create dirs *)
  (if create_instance_dirs then ensure_dirs install_paths else ret tt) ;;;
  (* load manifest and optional extracted overrides path *)
  loaded <- _load_manifest env source ;;
  let manifest := fst loaded in
  let extracted_overrides := snd loaded in
  (* backup instance *)
  backup_path <- (if backup_on_failure self then make_backup env root else ret None) ;;
  let backups := match backup_path with Some b => [b] | None => [] end in
  (* build install plan *)
  items <- build_plan_from_manifest self manifest install_paths ;;
  let total := Z.of_nat (length items) in
  if dry_run then
    now <- time_time ;;
    ret {| manifest_name := jget manifest "name";
           manifest_version := jget manifest "version";
           total_files := total; successful := 0; failed := 0;
           results := map dry_run_result items;
           backups := backups;
           time_elapsed := (now - start)%Q;
           report_success := false |}
  else
    (* ensure target folders exist *)
    make_target_folders items ;;;
    rs <- run_pool env self items ;;
    (* populate report *)
    let n_ok := count_successful rs in
    let n_failed := count_failed rs in
    (* apply overrides if present *)
    apply_overrides env source manifest extracted_overrides root overwrite ;;;
    (* if there were required failures, attempt rollback *)
    rollback_if_failed root backup_path n_failed ;;;
    (* cleanup: if backup created and success and not preserve_backups *)
    cleanup_backup backup_path n_failed preserve_backups ;;;
    now <- time_time ;;
    ret {| manifest_name := jget manifest "name";
           manifest_version := jget manifest "version";
           total_files := total; successful := n_ok; failed := n_failed;
           results := rs;
           backups := backups;
           time_elapsed := (now - start)%Q;
           report_success := (n_failed =? 0) |}.

(* ================================================================== *)
(** * Vocabulary of the properties and concrete inputs *)
(* ================================================================== *)

(** An entry lacks a project (file) identifier when none of the keys the
    planner consults is present with a value. *)
Definition lacks_project (entry : dict json) : Prop :=
  jget entry "projectID" = JNull /\ jget entry "projectId" = JNull /\
  jget entry "project" = JNull.

Definition lacks_file (entry : dict json) : Prop :=
  jget entry "fileID" = JNull /\ jget entry "fileId" = JNull /\
  jget entry "file" = JNull.

Definition demo_client : Client :=
  {| get_mod_file := None; get_file := None; get_modfile := None;
     get_file_download_url := Some (fun _ _ => Ok (Some "http://cdn.example/a.jar"));
     get_file_download_link := None |}.

Definition demo_installer : ModPackInstaller :=
  ModPackInstaller_init demo_client 4 3 (3 # 5) true.

(** Two entries, the second without a file identifier. *)
Definition demo_manifest : dict json :=
  [("name", JStr "pack");
   ("files", JList [JDict [("projectID", JInt 1); ("fileID", JInt 2)];
                    JDict [("projectID", JInt 7); ("required", JBool true)]])].

Definition demo_manifest_clean : dict json :=
  [("name", JStr "pack");
   ("files", JList [JDict [("projectID", JInt 1); ("fileID", JInt 2)]])].


(** A server that answers every request with the same response. *)
Definition constant_server (r : res Response) : nat -> string -> dict string -> res Response :=
  fun _ _ _ => r.

Definition demo_body : list stream_item := [Chunk [x50; x4b]; Chunk [x03; x04]].

Definition demo_response (status : Z) (reason : string) (h : dict string) : Response :=
  {| status_code := status; reason := reason; headers := h;
     resp_url := "http://cdn.example/a.jar"; content := demo_body |}.

(** Toy digests (the real ones are those of [hashlib]). *)
Definition toy_digest (tag : string) (b : bytes) : string :=
  tag +:+ pretty (Z.of_nat (length b)).

Definition demo_env_with (server : nat -> string -> dict string -> res Response) : Env :=
  {| requests_get := server;
     random_random := fun _ => 1 # 2;
     parsedate_to_datetime := fun _ => None;
     float_str := fun q => pretty (Qfloor q) +:+ ".0";
     strftime_stamp := fun _ => "20240101T000000Z";
     sha1_hex := toy_digest "a";
     sha256_hex := toy_digest "b";
     md5_hex := toy_digest "c";
     cwd := [];
     decode_manifest := fun fs _ => (fs, Raise (Exn ManifestError "not a manifest")) |}.

Definition demo_env : Env := demo_env_with (constant_server (Ok (demo_response 200 "OK" []))).

Definition world_of (fs : FS) : World :=
  {| w_fs := fs; w_trace := []; w_requests := 0; w_draws := 0; w_clock := 0 |}.

(** An instance directory with one file of the user's, and nothing else. *)
Definition demo_fs : FS :=
  {[ [] := Dir; ["inst"] := Dir; ["inst"; "options.txt"] := File [x61] ]}.

Definition demo_world : World := world_of demo_fs.

(** Expected hashes whose digests are texts, as their type says. *)
Definition str_hashes (hs : dict string) : dict json :=
  map (fun kv => (fst kv, JStr (snd kv))) hs.

(** The digests of [hashlib] are never empty. *)
Definition digests_nonempty (env : Env) : Prop :=
  forall b, sha1_hex env b <> EmptyString /\ sha256_hex env b <> EmptyString
            /\ md5_hex env b <> EmptyString.

(** The entry [algo -> digest] of the expected hashes equals, without
    regard to letter case, the digest computed for that algorithm. *)
Definition entry_equals_digest (env : Env) (fs : FS) (p : path) (algo digest : string)
  : Prop :=
  exists d, digests_get (computed_hashes env fs p) (lower algo) = Some d
            /\ lower digest = lower d.

(** C6 as the specification words it, over dictionaries (distinct keys). *)
Definition is_same_file_claim : Prop :=
  forall env fs p data (hs : dict string),
    NoDup (map fst hs) ->
    digests_nonempty env ->
    fs !! p = Some (File data) ->
    exists b c,
      is_same_file env fs p (Some (str_hashes hs)) = Ok (b, c)
      /\ (b = true <-> exists k v, In (k, v) hs /\ entry_equals_digest env fs p k v).

(** Two spellings of one algorithm: the first digest is the right one for
    a file of one byte under the toy digests, the second is not. *)
Definition clashing_hashes : dict string := [("SHA1", "a1"); ("sha1", "00")].

(** The result recorded for an item that is already in place. *)
Definition skipped_result (it : InstallItem) (fp : path) : InstallResult :=
  {| item := it; success := true; result_path := Some fp; downloaded_bytes := 0;
     attempts := 0; error := None; checksum_ok := Some true |}.

(** An item whose file is present with the expected SHA-1 (toy digests). *)
Definition present_item : InstallItem :=
  {| project_id := 1; file_id := 2; required := true;
     remote_file_name := Some "options.txt";
     download_url := Some "http://cdn.example/options.txt";
     expected_hashes := [("sha1", JStr "A1")];
     target_folder := Some ["inst"];
     target_path := Some ["inst"; "options.txt"];
     size_bytes := None; metadata := [] |}.

(** An item planned for a file that is not there yet. *)
Definition absent_item : InstallItem :=
  {| project_id := 1; file_id := 2; required := true;
     remote_file_name := Some "a.jar";
     download_url := Some "http://cdn.example/a.jar";
     expected_hashes := [];
     target_folder := Some ["inst"; "mods"];
     target_path := Some ["inst"; "mods"; "a.jar"];
     size_bytes := None; metadata := [] |}.







(** The directory of [dest] and all directories above it exist. *)
Definition dirs_ready (dest : path) (w : World) : Prop :=
  forall q, In q (ancestors_and_self (parent dest)) -> w_fs w !! q = Some Dir.

(** Nothing was written and nothing was sent between two worlds (time may
    have passed). *)
Definition quiet (w w' : World) : Prop :=
  w_fs w' = w_fs w /\ w_requests w' = w_requests w.



Definition demo_manager : DownloadManager := DownloadManager_init 4 (3 # 5).

(** A server that answers the first request with 429 and [Retry-After: 2]
    and every later one with 200. *)
Definition rate_limiting_server : nat -> string -> dict string -> res Response :=
  fun n _ _ =>
    match n with
    | O => Ok (demo_response 429 "Too Many Requests" [("Retry-After", "2")])
    | S _ => Ok (demo_response 200 "OK" [])
    end.

Definition rate_limiting_env : Env := demo_env_with rate_limiting_server.

(** The text [_attempt_download] reports for a 429, for the value [x]
    as the float was printed. *)
Definition rate_limit_text (x : string) : string :=
  "429 Rate limited; retry-after=" +:+ x.

(** The text has a character that is neither white space nor a digit. *)
Fixpoint has_other (s : string) : bool :=
  match s with
  | EmptyString => false
  | String c r => (negb (is_space c) && negb (is_digit c)) || has_other r
  end.



(** An action keeps a relation between the world it starts in and the
    world it ends in, whether it returns or raises. *)
Definition keeps {A} (R : World -> World -> Prop) (m : M A) : Prop :=
  forall w w' r, m w = (w', r) -> R w w'.

(** A relation between file systems, as a relation between worlds. *)
Definition on_files (P : FS -> FS -> Prop) (w w' : World) : Prop :=
  P (w_fs w) (w_fs w').

(** [q] lies strictly below [root]. *)
Definition below (root q : path) : Prop := under root q = true /\ q <> root.

(** What may differ between two file systems when only the tree below
    [root] is written to: paths strictly below [root], and directories
    on the way to [root] that were missing. *)
Definition confined (root : path) (fs fs' : FS) : Prop :=
  forall q, fs' !! q = fs !! q
            \/ below root q
            \/ (under q root = true /\ fs !! q = None /\ fs' !! q = Some Dir).







(* ================================================================== *)
(** * Properties *)
(* ================================================================== *)

(** ** Reasoning about actions *)

Lemma bind_ok {A B} (m : M A) (k : A -> M B) w w1 a :
  m w = (w1, Ok a) -> bind m k w = k a w1.
Proof. intros H. unfold bind. now rewrite H. Qed.

Lemma bind_raise {A B} (m : M A) (k : A -> M B) w w1 e :
  m w = (w1, Raise e) -> bind m k w = (w1, Raise e).
Proof. intros H. unfold bind. now rewrite H. Qed.

Lemma bind_inv_ok {A B} (m : M A) (k : A -> M B) w w' b :
  bind m k w = (w', Ok b) ->
  exists w1 a, m w = (w1, Ok a) /\ k a w1 = (w', Ok b).
Proof.
  unfold bind. destruct (m w) as [w1 [a|e]] eqn:E; intros H.
  - eauto.
  - discriminate.
Qed.

Lemma bind_ext {A B} (m : M A) (k k' : A -> M B) w :
  (forall a w1, k a w1 = k' a w1) -> bind m k w = bind m k' w.
Proof. intros H. unfold bind. destruct (m w) as [w1 [a|e]]; [apply H | reflexivity]. Qed.

Lemma bind_cong {A B} (m m' : M A) (k : A -> M B) w :
  m w = m' w -> bind m k w = bind m' k w.
Proof. intros H. unfold bind. now rewrite H. Qed.

Lemma bind_get_fs {B} (k : FS -> M B) w : bind get_fs k w = k (w_fs w) w.
Proof. reflexivity. Qed.

Lemma bind_time_time {B} (k : Q -> M B) w : bind time_time k w = k (w_clock w) w.
Proof. reflexivity. Qed.


Lemma try_except_raise {A} (m : M A) h w w1 e :
  m w = (w1, Raise e) -> try_except m h w = h e w1.
Proof. intros H. unfold try_except. now rewrite H. Qed.

Lemma attempt_never_raises {A} (m : M A) w :
  exists w1 r, attempt m w = (w1, Ok r) /\ m w = (w1, r).
Proof.
  unfold attempt, try_except, bind, ret.
  destruct (m w) as [w1 [a|e]]; eauto.
Qed.

(** Destructs the first action of a sequence in the goal. *)
Ltac mcase H :=
  match goal with
  | |- context [bind ?m ?k ?w] =>
      let w1 := fresh "w" in let a := fresh "a" in let e := fresh "e" in
      destruct (m w) as [w1 [a|e]] eqn:H;
      [ rewrite (bind_ok m k w w1 a H) | rewrite (bind_raise m k w w1 e H) ]
  end.

(* ------------------------------------------------------------------ *)
(** ** The install plan *)

Lemma plan_entry_skips self ip entry w :
  lacks_project entry \/ lacks_file entry ->
  plan_entry self ip entry w = (w, Ok None).
Proof.
  intros [(H1 & H2 & H3) | (H1 & H2 & H3)]; unfold plan_entry.
  - unfold entry_project. rewrite H1, H2, H3. reflexivity.
  - assert (Hf : entry_file entry = JNull)
      by (unfold entry_file; rewrite H1, H2, H3; reflexivity).
    destruct (entry_project entry); try rewrite Hf; reflexivity.
Qed.

Lemma plan_entries_skip self ip pre entry post w :
  lacks_project entry \/ lacks_file entry ->
  plan_entries self ip (pre ++ JDict entry :: post) w
  = plan_entries self ip (pre ++ post) w.
Proof.
  intros Hl. revert w. induction pre as [|x pre IH]; intros w; simpl.
  - unfold bind at 1. rewrite (plan_entry_skips _ _ _ _ Hl).
    unfold bind, ret. destruct (plan_entries self ip post w) as [w1 [items|e]]; reflexivity.
  - destruct x; try reflexivity.
    apply bind_ext. intros planned w1. apply bind_cong, IH.
Qed.

Lemma plan_entries_length self ip entries w w' items :
  plan_entries self ip entries w = (w', Ok items) ->
  (length items <= length entries)%nat.
Proof.
  revert w w' items. induction entries as [|x entries IH]; intros w w' items H; simpl in H.
  - inversion H; subst. simpl. lia.
  - destruct x; try discriminate.
    apply bind_inv_ok in H as (w1 & o & _ & H).
    apply bind_inv_ok in H as (w2 & rest & Hr & H).
    inversion H; subst. apply IH in Hr. destruct o; simpl; lia.
Qed.

(** ** The steps of an installation *)

(** A run of [install_from_manifest] that returns a report went through
    these steps, in these worlds. *)
Lemma install_from_manifest_steps env self source root cid ow dry pb w w' rep :
  install_from_manifest env self source root cid ow dry pb w = (w', Ok rep) ->
  exists wa wb manifest extracted wc backup wd items,
    (if cid then ensure_dirs (from_custom root) else ret tt) w = (wa, Ok tt)
    /\ _load_manifest env source wa = (wb, Ok (manifest, extracted))
    /\ (if backup_on_failure self then make_backup env root else ret None) wb
       = (wc, Ok backup)
    /\ build_plan_from_manifest self manifest (from_custom root) wc = (wd, Ok items)
    /\ total_files rep = Z.of_nat (length items)
    /\ backups rep = match backup with Some b => [b] | None => [] end
    /\ if dry then
         w' = wd /\ results rep = map dry_run_result items
         /\ successful rep = 0 /\ failed rep = 0 /\ report_success rep = false
       else
         exists we wf rs wg applied wh,
           make_target_folders items wd = (we, Ok tt)
           /\ run_pool env self items we = (wf, Ok rs)
           /\ apply_overrides env source manifest extracted root ow wf = (wg, Ok applied)
           /\ rollback_if_failed root backup (count_failed rs) wg = (wh, Ok tt)
           /\ cleanup_backup backup (count_failed rs) pb wh = (w', Ok tt)
           /\ results rep = rs
           /\ successful rep = count_successful rs
           /\ failed rep = count_failed rs
           /\ report_success rep = (count_failed rs =? 0).
Proof.
  unfold install_from_manifest. intros H.
  apply bind_inv_ok in H as (w0 & start & Ht & H).
  inversion Ht; subst w0 start; clear Ht.
  apply bind_inv_ok in H as (wa & [] & Ha & H).
  apply bind_inv_ok in H as (wb & [manifest extracted] & Hb & H).
  apply bind_inv_ok in H as (wc & backup & Hc & H).
  apply bind_inv_ok in H as (wd & items & Hd & H).
  exists wa, wb, manifest, extracted, wc, backup, wd, items.
  repeat (split; [eassumption|]).
  destruct dry.
  - apply bind_inv_ok in H as (w1 & now & Ht & H).
    inversion Ht; subst w1 now; clear Ht.
    inversion H; subst; simpl. repeat split; reflexivity.
  - apply bind_inv_ok in H as (we & [] & He & H).
    apply bind_inv_ok in H as (wf & rs & Hf & H).
    apply bind_inv_ok in H as (wg & applied & Hg & H).
    apply bind_inv_ok in H as (wh & [] & Hh & H).
    apply bind_inv_ok in H as (wi & [] & Hi & H).
    apply bind_inv_ok in H as (w1 & now & Ht & H).
    inversion Ht; subst w1 now; clear Ht.
    inversion H; subst; simpl. split; [reflexivity|]. split; [reflexivity|].
    exists we, wf, rs, wg, applied, wh. repeat split; assumption || reflexivity.
Qed.

(** C10.  [build_plan_from_manifest] passes over an entry of the files
    list that lacks a project or a file identifier exactly as if the entry
    were not there: no exception is raised for it, no client call is made
    and no item is produced.  A plan that is returned therefore has fewer
    items than the files list has entries, and so has [total_files] of the
    report of an installation from that manifest. *)
Theorem build_plan_skips_entries_without_ids :
  forall self manifest manifest' pre entry post,
    lacks_project entry \/ lacks_file entry ->
    jget manifest "files" = JList (pre ++ JDict entry :: post) ->
    jget manifest' "files" = JList (pre ++ post) ->
    (forall ip w,
        build_plan_from_manifest self manifest ip w
        = build_plan_from_manifest self manifest' ip w)
    /\ (forall ip w w' items,
          build_plan_from_manifest self manifest ip w = (w', Ok items) ->
          (length items < length (pre ++ JDict entry :: post))%nat)
    /\ (forall env root cid ow dry pb w w' rep,
          install_from_manifest env self (SrcDict manifest) root cid ow dry pb w
          = (w', Ok rep) ->
          total_files rep < Z.of_nat (length (pre ++ JDict entry :: post))).
Proof.
  intros self manifest manifest' pre entry post Hl Hm Hm'.
  assert (E : forall ip w, build_plan_from_manifest self manifest ip w
                           = plan_entries self ip (pre ++ post) w).
  { intros ip w. unfold build_plan_from_manifest. rewrite Hm. unfold py_or.
    replace (truthy (JList (pre ++ JDict entry :: post))) with true
      by (destruct pre; reflexivity).
    apply plan_entries_skip, Hl. }
  assert (L : forall ip w w' items,
             build_plan_from_manifest self manifest ip w = (w', Ok items) ->
             (length items < length (pre ++ JDict entry :: post))%nat).
  { intros ip w w' items H. rewrite E in H. apply plan_entries_length in H.
    rewrite !length_app in *. simpl. lia. }
  split; [|split].
  - intros ip w. rewrite E. unfold build_plan_from_manifest. rewrite Hm'. unfold py_or.
    destruct (pre ++ post) eqn:Epp; reflexivity.
  - exact L.
  - intros env root cid ow dry pb w w' rep H.
    apply install_from_manifest_steps in H
      as (wa & wb & m & ex & wc & bk & wd & items & _ & Hload & _ & Hplan & Htot & _).
    simpl in Hload. inversion Hload; subst m ex wb.
    apply L in Hplan. rewrite Htot. lia.
Qed.

Lemma build_plan_skips_entries_without_ids_witness :
  (forall ip w,
      build_plan_from_manifest demo_installer demo_manifest ip w
      = build_plan_from_manifest demo_installer demo_manifest_clean ip w)
  /\ (forall ip w w' items,
        build_plan_from_manifest demo_installer demo_manifest ip w = (w', Ok items) ->
        (length items < 2)%nat)
  /\ (forall env root cid ow dry pb w w' rep,
        install_from_manifest env demo_installer (SrcDict demo_manifest) root cid ow dry pb w
        = (w', Ok rep) ->
        total_files rep < 2).
Proof.
  apply (build_plan_skips_entries_without_ids demo_installer demo_manifest
           demo_manifest_clean
           [JDict [("projectID", JInt 1); ("fileID", JInt 2)]]
           [("projectID", JInt 7); ("required", JBool true)] []).
  - right. repeat split; reflexivity.
  - reflexivity.
  - reflexivity.
Defined.

(* ------------------------------------------------------------------ *)
(** ** The counts of the report *)

Lemma run_pool_length env self items w w' rs :
  run_pool env self items w = (w', Ok rs) -> length rs = length items.
Proof.
  revert w w' rs. induction items as [|it items IH]; intros w w' rs H; simpl in H.
  - inversion H. reflexivity.
  - apply bind_inv_ok in H as (w1 & o & _ & H).
    apply bind_inv_ok in H as (w2 & rs' & Hr & H).
    inversion H; subst. simpl. f_equal. eapply IH, Hr.
Qed.

Lemma counts_within_length rs :
  0 <= count_successful rs /\ 0 <= count_failed rs /\
  count_successful rs + count_failed rs <= Z.of_nat (length rs).
Proof.
  unfold count_successful, count_failed.
  induction rs as [|r rs IH]; simpl; [lia|].
  destruct (success r); simpl; [lia|].
  destruct (required (item r)); simpl; lia.
Qed.

(** C3, counterexample.  A dry run over a perfectly good manifest returns
    a report with [success = false] although [failed = 0]. *)
Lemma dry_run_report_is_not_success_iff_no_failure :
  ~ (forall env self source root cid ow dry pb w w' rep,
        install_from_manifest env self source root cid ow dry pb w = (w', Ok rep) ->
        (report_success rep = true <-> failed rep = 0)
        /\ successful rep + failed rep <= total_files rep).
Proof.
  intros H.
  destruct (install_from_manifest demo_env demo_installer (SrcDict demo_manifest)
              ["inst"] true true true true demo_world) as [w' [rep|e]] eqn:E.
  - destruct (H _ _ _ _ _ _ _ _ _ _ _ E) as [[_ Hiff] _].
    apply install_from_manifest_steps in E
      as (wa & wb & m & ex & wc & bk & wd & items & _ & _ & _ & _ & _ & _ & Hdry).
    destruct Hdry as (_ & _ & _ & Hf & Hs).
    rewrite Hiff in Hs by exact Hf. discriminate.
  - assert (Hok : is_ok (snd (install_from_manifest demo_env demo_installer
                                (SrcDict demo_manifest) ["inst"] true true true true
                                demo_world)) = true) by (vm_compute; reflexivity).
    rewrite E in Hok. discriminate.
Qed.

(** C3, as the code has it.  Every report satisfies
    [successful + failed <= total_files].  A report of a run that is not a
    dry run has [success] exactly when [failed = 0]; the report of a dry
    run has [success = false] with [failed = 0] and [successful = 0]. *)
Theorem report_counts :
  forall env self source root cid ow dry pb w w' rep,
    install_from_manifest env self source root cid ow dry pb w = (w', Ok rep) ->
    successful rep + failed rep <= total_files rep
    /\ (dry = false -> (report_success rep = true <-> failed rep = 0))
    /\ (dry = true ->
        report_success rep = false /\ failed rep = 0 /\ successful rep = 0).
Proof.
  intros env self source root cid ow dry pb w w' rep H.
  apply install_from_manifest_steps in H
    as (wa & wb & m & ex & wc & bk & wd & items & _ & _ & _ & _ & Htot & _ & Hrest).
  destruct dry.
  - destruct Hrest as (_ & _ & Hs & Hf & Hsucc).
    rewrite Hs, Hf, Htot. repeat split; try discriminate; try assumption. lia.
  - destruct Hrest as (we & wf & rs & wg & ap & wh & _ & Hpool & _ & _ & _ & _
                       & Hs & Hf & Hsucc).
    apply run_pool_length in Hpool.
    pose proof (counts_within_length rs) as (? & ? & ?).
    rewrite Hs, Hf, Htot, Hsucc, <- Hpool.
    split; [lia|]. split; [|discriminate].
    intros _. rewrite Z.eqb_eq. reflexivity.
Qed.

Lemma report_counts_witness :
  exists w' rep,
    install_from_manifest demo_env demo_installer (SrcDict demo_manifest)
      ["inst"] true true false true demo_world = (w', Ok rep)
    /\ successful rep + failed rep <= total_files rep
    /\ (false = false -> (report_success rep = true <-> failed rep = 0))
    /\ (false = true ->
        report_success rep = false /\ failed rep = 0 /\ successful rep = 0).
Proof.
  eexists. eexists. split.
  - vm_compute. reflexivity.
  - eapply (report_counts demo_env demo_installer (SrcDict demo_manifest)
              ["inst"] true true false true demo_world).
    vm_compute. reflexivity.
Defined.

(* ------------------------------------------------------------------ *)
(** ** is_same_file *)

Lemma lower_ascii_idem c : lower_ascii (lower_ascii c) = lower_ascii c.
Proof.
  destruct c as [[] [] [] [] [] [] [] []]; reflexivity.
Qed.

Lemma lower_idem s : lower (lower s) = lower s.
Proof. induction s as [|c s IH]; simpl; [reflexivity|]. now rewrite lower_ascii_idem, IH. Qed.

Lemma lower_empty s : lower s = EmptyString <-> s = EmptyString.
Proof. destruct s; simpl; split; intros H; try reflexivity; discriminate. Qed.

Lemma str_truthy_true s : str_truthy s = true <-> s <> EmptyString.
Proof. destruct s; simpl; split; intros H; try reflexivity; try discriminate; congruence. Qed.

Lemma truthy_JStr s : truthy (JStr s) = str_truthy s.
Proof. reflexivity. Qed.

(** The normalised dictionary, when no two keys agree up to case. *)
Lemma norm_expected_from_spec (hs : dict string) :
  forall acc,
    NoDup (map (fun kv => lower (fst kv)) hs) ->
    (forall k v, In (k, v) hs -> acc !! lower k = None) ->
    exists n,
      norm_expected_from acc (str_hashes hs) = Ok n
      /\ forall a e,
          n !! a = Some e <->
          acc !! a = Some e
          \/ exists k v, In (k, v) hs /\ v <> EmptyString /\ a = lower k /\ e = lower v.
Proof.
  induction hs as [|[k v] hs IH]; intros acc Hnd Hfresh; simpl.
  - exists acc. split; [reflexivity|]. intros a e. split; [auto|].
    intros [H | (k & v & [] & _)]. exact H.
  - inversion Hnd as [|x l Hnotin Hnd']; subst. simpl in Hnotin.
    destruct (str_truthy v) eqn:Ev.
    + destruct (IH (<[lower k := lower v]> acc) Hnd') as (n & Hn & Hspec).
      { intros k' v' Hin. rewrite lookup_insert_ne.
        - apply (Hfresh k' v'). now right.
        - intros Heq. apply Hnotin. rewrite Heq. apply list_elem_of_In.
          apply (in_map (fun kv => lower (fst kv)) hs (k', v')), Hin. }
      exists n. split; [exact Hn|]. intros a e. rewrite Hspec. split.
      * intros [H | (k' & v' & Hin & Hv & Ha & He)].
        -- destruct (decide (lower k = a)) as [<-|Hne].
           ++ rewrite lookup_insert_eq in H. inversion H; subst.
              right. exists k, v. split; [now left|]. split; [|auto].
              now apply str_truthy_true.
           ++ rewrite lookup_insert_ne in H by exact Hne. now left.
        -- right. exists k', v'. split; [now right|auto].
      * intros [H | (k' & v' & [Heq | Hin] & Hv & Ha & He)].
        -- left. rewrite lookup_insert_ne; [exact H|].
           intros <-. rewrite (Hfresh k v) in H; [discriminate | now left].
        -- inversion Heq; subst. left. apply lookup_insert_eq.
        -- right. exists k', v'. auto.
    + destruct (IH acc Hnd') as (n & Hn & Hspec).
      { intros k' v' Hin. apply (Hfresh k' v'). now right. }
      exists n. split; [exact Hn|]. intros a e. rewrite Hspec. split.
      * intros [H | (k' & v' & Hin & Hrest)]; [now left|].
        right. exists k', v'. split; [now right | exact Hrest].
      * intros [H | (k' & v' & [Heq | Hin] & Hv & Hrest)]; [now left| |].
        -- inversion Heq; subst. apply str_truthy_true in Hv. congruence.
        -- right. exists k', v'. auto.
Qed.

Lemma digest_hit_spec c a e :
  digest_hit c a e = true <->
  exists d, digests_get c a = Some d /\ d <> EmptyString /\ lower d = lower e.
Proof.
  unfold digest_hit. destruct (digests_get c a) as [d|].
  - rewrite andb_true_iff, str_truthy_true, String.eqb_eq. split.
    + intros [H1 H2]. eauto.
    + intros (d' & Hd & H1 & H2). inversion Hd; subst. auto.
  - split; [discriminate | intros (d & H & _); discriminate].
Qed.

Lemma computed_of_file_nonempty env fs p data a d :
  digests_nonempty env ->
  fs !! p = Some (File data) ->
  digests_get (computed_hashes env fs p) a = Some d -> d <> EmptyString.
Proof.
  intros Hne Hf. destruct (Hne data) as (H1 & H2 & H3).
  unfold digests_get, computed_hashes, file_digest. rewrite Hf. simpl.
  repeat match goal with |- context [if ?b then _ else _] => destruct b end;
    intros H; inversion H; subst; assumption.
Qed.

(** The verdict of [is_same_file] on a regular file, for expected hashes
    without two keys that agree up to case. *)
Lemma is_same_file_verdict env fs p data (hs : dict string) :
  NoDup (map (fun kv => lower (fst kv)) hs) ->
  digests_nonempty env ->
  fs !! p = Some (File data) ->
  exists b,
    is_same_file env fs p (Some (str_hashes hs)) = Ok (b, computed_hashes env fs p)
    /\ (b = true <-> exists k v, In (k, v) hs /\ entry_equals_digest env fs p k v).
Proof.
  intros Hnd Hne Hf. unfold is_same_file, fs_exists. rewrite Hf. simpl.
  destruct hs as [|kv hs].
  - exists false. split; [reflexivity|]. split; [discriminate|].
    intros (k & v & [] & _).
  - destruct (norm_expected_from_spec (kv :: hs) ∅ Hnd) as (n & Hn & Hspec).
    { intros. apply lookup_empty. }
    change (str_hashes (kv :: hs)) with
      ((fst kv, JStr (snd kv)) :: str_hashes hs) in Hn.
    simpl. unfold norm_expected. rewrite Hn.
    eexists. split; [reflexivity|].
    rewrite bool_decide_eq_true. unfold map_Exists. split.
    + intros (a & e & Hlook & Hhit). apply Hspec in Hlook.
      destruct Hlook as [Hemp | (k & v & Hin & Hv & -> & ->)].
      { rewrite lookup_empty in Hemp. discriminate. }
      apply digest_hit_spec in Hhit as (d & Hd & Hdne & Hl).
      exists k, v. split; [exact Hin|]. exists d. split; [exact Hd|].
      rewrite lower_idem in Hl. congruence.
    + intros (k & v & Hin & d & Hd & Hl).
      assert (Hdne : d <> EmptyString)
        by (eapply computed_of_file_nonempty; eauto).
      assert (Hv : v <> EmptyString).
      { intros ->. simpl in Hl. symmetry in Hl.
        apply (proj1 (lower_empty d)) in Hl. contradiction. }
      exists (lower k), (lower v). split.
      * apply Hspec. right. exists k, v. auto.
      * apply digest_hit_spec. exists d. split; [exact Hd|]. split; [exact Hdne|].
        rewrite lower_idem. congruence.
Qed.

Lemma demo_digests_nonempty server : digests_nonempty (demo_env_with server).
Proof. intros b. repeat split; discriminate. Qed.

(** C6, counterexample.  With the expected hashes
    [{"SHA1": d, "sha1": "00"}], where [d] is the SHA-1 digest of the
    file, the entry under [SHA1] equals the computed digest, yet the
    normalisation keeps only the later entry and the verdict is false. *)
Lemma is_same_file_forgets_an_entry_on_key_clash : ~ is_same_file_claim.
Proof.
  intros H.
  destruct (H demo_env demo_fs ["inst"; "options.txt"] [x61] clashing_hashes)
    as (b & c & Hrun & Hiff).
  - apply (bool_decide_unpack _). vm_compute. exact I.
  - apply demo_digests_nonempty.
  - reflexivity.
  - assert (Hb : b = true).
    { apply Hiff. exists "SHA1", "a1". split; [now left|].
      exists "a1". split; reflexivity. }
    subst b. vm_compute in Hrun. discriminate.
Qed.

(** C6, as the code has it.  For a regular file and expected hashes of
    which no two algorithm names agree up to letter case, [matches] is
    true exactly when some entry equals, without regard to case, the
    digest computed for its algorithm.  For empty or absent expected
    hashes [matches] is false whatever exists at the path, and a path
    that does not exist raises [FileNotFoundError]. *)
Theorem is_same_file_matches :
  forall env fs p,
    digests_nonempty env ->
    (forall data (hs : dict string),
        fs !! p = Some (File data) ->
        NoDup (map (fun kv => lower (fst kv)) hs) ->
        exists b,
          is_same_file env fs p (Some (str_hashes hs))
          = Ok (b, computed_hashes env fs p)
          /\ (b = true <->
              exists k v, In (k, v) hs /\ entry_equals_digest env fs p k v))
    /\ (fs_exists fs p = true ->
        is_same_file env fs p None = Ok (false, computed_hashes env fs p)
        /\ is_same_file env fs p (Some []) = Ok (false, computed_hashes env fs p))
    /\ (fs_exists fs p = false ->
        forall eh, exists msg,
            is_same_file env fs p eh = Raise (Exn FileNotFoundError msg)).
Proof.
  intros env fs p Hne. split; [|split].
  - intros data hs Hf Hnd. eapply is_same_file_verdict; eauto.
  - intros Hex. unfold is_same_file. rewrite Hex. simpl. split; reflexivity.
  - intros Hex eh. unfold is_same_file. rewrite Hex. simpl. eauto.
Qed.

Lemma is_same_file_matches_witness :
  digests_nonempty demo_env
  /\ (forall data (hs : dict string),
        demo_fs !! ["inst"; "options.txt"] = Some (File data) ->
        NoDup (map (fun kv => lower (fst kv)) hs) ->
        exists b,
          is_same_file demo_env demo_fs ["inst"; "options.txt"] (Some (str_hashes hs))
          = Ok (b, computed_hashes demo_env demo_fs ["inst"; "options.txt"])
          /\ (b = true <->
              exists k v, In (k, v) hs
                          /\ entry_equals_digest demo_env demo_fs
                               ["inst"; "options.txt"] k v))
  /\ (fs_exists demo_fs ["inst"; "options.txt"] = true ->
      is_same_file demo_env demo_fs ["inst"; "options.txt"] None
      = Ok (false, computed_hashes demo_env demo_fs ["inst"; "options.txt"])
      /\ is_same_file demo_env demo_fs ["inst"; "options.txt"] (Some [])
         = Ok (false, computed_hashes demo_env demo_fs ["inst"; "options.txt"]))
  /\ (fs_exists demo_fs ["inst"; "options.txt"] = false ->
      forall eh, exists msg,
          is_same_file demo_env demo_fs ["inst"; "options.txt"] eh
          = Raise (Exn FileNotFoundError msg)).
Proof.
  split.
  - intros b. repeat split; discriminate.
  - apply (is_same_file_matches demo_env demo_fs ["inst"; "options.txt"]).
    intros b. repeat split; discriminate.
Defined.

(* ------------------------------------------------------------------ *)
(** ** Skip if already correct *)



(* ------------------------------------------------------------------ *)
(** ** Paths and the file system *)

Lemma append_cons x (a b : string) : String x a +:+ b = String x (a +:+ b).
Proof. reflexivity. Qed.

Lemma append_assoc (a b c : string) : (a +:+ b) +:+ c = a +:+ (b +:+ c).
Proof.
  induction a as [|x a IH]; [reflexivity|]. rewrite !append_cons. f_equal. exact IH.
Qed.

Lemma length_append (a b : string) :
  String.length (a +:+ b) = (String.length a + String.length b)%nat.
Proof.
  induction a as [|x a IH]; [reflexivity|]. rewrite append_cons. simpl. f_equal. exact IH.
Qed.

Lemma append_neq_self (a b : string) : b <> EmptyString -> a +:+ b <> a.
Proof.
  intros Hb H. apply (f_equal String.length) in H. rewrite length_append in H.
  destruct b; [congruence | simpl in H; lia].
Qed.

Lemma rsplit_dot_app s stem suf : rsplit_dot s = Some (stem, suf) -> stem +:+ suf = s.
Proof.
  revert stem suf. induction s as [|c s IH]; intros stem suf H; simpl in H; [discriminate|].
  destruct (rsplit_dot s) as [[st sf]|].
  - inversion H; subst. rewrite append_cons. f_equal. now apply IH.
  - destruct (Ascii.eqb c "."); inversion H; subst. reflexivity.
Qed.

Lemma split_suffix_app nm : fst (split_suffix nm) +:+ snd (split_suffix nm) = nm.
Proof.
  unfold split_suffix. destruct (rsplit_dot nm) as [[stem suf]|] eqn:E.
  - destruct (str_truthy stem && (1 <? String.length suf)%nat); simpl.
    + now apply rsplit_dot_app.
    + clear. induction nm; [reflexivity | rewrite append_cons; congruence].
  - simpl. clear. induction nm; [reflexivity | rewrite append_cons; congruence].
Qed.

(** The part file is the destination with [.part] appended to its name. *)
Lemma temp_part_path_name dest :
  temp_part_path dest =
  match dest with
  | [] => [".part"]
  | _ => parent dest ++ [name dest +:+ ".part"]
  end.
Proof.
  unfold temp_part_path. destruct (str_truthy (suffix dest)) eqn:Es.
  - unfold with_suffix. destruct (str_truthy (name dest)) eqn:En; simpl.
    + unfold with_name, suffix. rewrite <- append_assoc, split_suffix_app.
      destruct dest; [discriminate En | reflexivity].
    + unfold path_add_str, with_name. destruct dest; reflexivity.
  - unfold path_add_str, with_name. destruct dest; reflexivity.
Qed.

Lemma path_parent_name (p : path) : p <> [] -> p = parent p ++ [name p].
Proof. intros H. unfold parent, name. now apply app_removelast_last. Qed.

Lemma temp_part_path_neq dest : temp_part_path dest <> dest.
Proof.
  rewrite temp_part_path_name. destruct dest as [|c r] eqn:E; [discriminate|].
  rewrite <- E. intros H.
  assert (Hne : dest <> []) by (subst; discriminate).
  rewrite (path_parent_name dest Hne) in H at 3.
  apply app_inv_head in H. inversion H as [H1].
  revert H1. apply append_neq_self. discriminate.
Qed.

Lemma prefixes_from_length done todo q :
  In q (prefixes_from done todo) ->
  (length done < length q <= length done + length todo)%nat.
Proof.
  revert done. induction todo as [|c r IH]; intros done H; simpl in H; [contradiction|].
  destruct H as [<- | H].
  - rewrite length_app. simpl. lia.
  - apply IH in H. rewrite length_app in H. simpl in *. lia.
Qed.

Lemma length_parent (p : path) : p <> [] -> S (length (parent p)) = length p.
Proof.
  intros H. rewrite (path_parent_name p H) at 2. rewrite length_app. simpl. lia.
Qed.

Lemma not_own_ancestor (p : path) : ~ In p (ancestors_and_self (parent p)).
Proof.
  intros H. apply prefixes_from_length in H. simpl in H.
  destruct p as [|c r] eqn:E; [simpl in H; lia|].
  rewrite <- E in *. assert (Hne : p <> []) by (subst; discriminate).
  apply length_parent in Hne. lia.
Qed.


Lemma mkdir_chain_other t qs fs q :
  ~ In q qs -> (mkdir_chain t qs fs).1 !! q = fs !! q.
Proof.
  revert fs. induction qs as [|x qs IH]; intros fs H; simpl; [reflexivity|].
  simpl in H. destruct (fs !! x) as [[|d]|] eqn:E; simpl; auto.
  rewrite IH by tauto. apply lookup_insert_ne. tauto.
Qed.

Lemma fs_open_other append p fs q :
  q <> p -> (fs_open append p fs).1 !! q = fs !! q.
Proof.
  intros H. unfold fs_open. destruct (negb (fs_is_dir fs (parent p))); [reflexivity|].
  destruct (fs !! p) as [[|d]|]; simpl; try reflexivity.
  - destruct append; [reflexivity | now apply lookup_insert_ne].
  - now apply lookup_insert_ne.
Qed.

Lemma fs_append_other p chunk fs q :
  q <> p -> fs_append p chunk fs !! q = fs !! q.
Proof.
  intros H. unfold fs_append. destruct (fs !! p) as [[|d]|]; try reflexivity.
  now apply lookup_insert_ne.
Qed.

Lemma stream_to_other part items w q :
  q <> part -> w_fs (stream_to part items w).1 !! q = w_fs w !! q.
Proof.
  intros H. revert w. induction items as [|[b|msg] items IH]; intros w; simpl;
    try reflexivity.
  unfold bind, on_fs. simpl. rewrite IH. simpl. now apply fs_append_other.
Qed.

Lemma on_fs_run {A} (op : FS -> FS * res A) w :
  w_fs (on_fs op w).1 = (op (w_fs w)).1 /\ (on_fs op w).2 = (op (w_fs w)).2.
Proof. unfold on_fs. destruct (op (w_fs w)); split; reflexivity. Qed.

Lemma fs_mkdir_p_other p fs q :
  ~ In q (ancestors_and_self p) -> (fs_mkdir_p p fs).1 !! q = fs !! q.
Proof. apply mkdir_chain_other. Qed.

(* ------------------------------------------------------------------ *)
(** ** The streamed download never reaches its destination *)

(** The call [atomic_write(dest, chunks=None, data=None)] raises, whatever
    the file system. *)
Lemma atomic_write_without_payload_raises dest w :
  exists w1 e,
    atomic_write no_faults dest None None None w = (w1, Raise e)
    /\ w_fs w1 !! dest = w_fs w !! dest.
Proof.
  unfold atomic_write, faulty. simpl. unfold bind.
  destruct (on_fs (fs_mkdir_p (parent dest)) w) as [w1 r] eqn:E.
  pose proof (on_fs_run (fs_mkdir_p (parent dest)) w) as [Hfs _]. rewrite E in Hfs.
  simpl in Hfs.
  assert (Hd : w_fs w1 !! dest = w_fs w !! dest).
  { rewrite Hfs. apply fs_mkdir_p_other, not_own_ancestor. }
  destruct r as [[]|e]; eauto.
Qed.

(** The block that opens the part file, streams the body and calls
    [atomic_write] always ends in an exception. *)
Lemma streaming_block_raises (resp : Response) dest append w :
  exists w1 e,
    (on_fs (fs_open append (temp_part_path dest)) ;;;
     stream_to (temp_part_path dest) (content resp) ;;;
     atomic_write no_faults dest None None None ;;;
     ret tt) w = (w1, Raise e)
    /\ w_fs w1 !! dest = w_fs w !! dest.
Proof.
  pose proof (temp_part_path_neq dest) as Hneq.
  unfold bind at 1.
  destruct (on_fs (fs_open append (temp_part_path dest)) w) as [w1 r1] eqn:E1.
  pose proof (on_fs_run (fs_open append (temp_part_path dest)) w) as [Hfs1 _].
  rewrite E1 in Hfs1. simpl in Hfs1.
  assert (H1 : w_fs w1 !! dest = w_fs w !! dest).
  { rewrite Hfs1. apply fs_open_other. congruence. }
  destruct r1 as [[]|e1]; [|eauto].
  unfold bind at 1.
  destruct (stream_to (temp_part_path dest) (content resp) w1) as [w2 r2] eqn:E2.
  assert (H2 : w_fs w2 !! dest = w_fs w1 !! dest).
  { pose proof (stream_to_other (temp_part_path dest) (content resp) w1 dest) as Hs.
    rewrite E2 in Hs. apply Hs. congruence. }
  destruct r2 as [[]|e2]; [|exists w2, e2; split; [reflexivity | congruence]].
  unfold bind at 1.
  destruct (atomic_write_without_payload_raises dest w2) as (w3 & e3 & E3 & H3).
  rewrite E3. exists w3, e3. split; [reflexivity | congruence].
Qed.

(** [write_stream_to_tempfile] never returns: it raises, and what is at
    the destination path is what was there before. *)
Lemma write_stream_to_tempfile_raises resp dest resume w :
  exists w' e,
    write_stream_to_tempfile resp dest resume w = (w', Raise e)
    /\ w_fs w' !! dest = w_fs w !! dest.
Proof.
  unfold write_stream_to_tempfile.
  destruct (on_fs (fs_mkdir_p (parent dest)) w) as [w1 r1] eqn:E1.
  pose proof (on_fs_run (fs_mkdir_p (parent dest)) w) as [Hfs1 _].
  rewrite E1 in Hfs1. simpl in Hfs1.
  assert (H1 : w_fs w1 !! dest = w_fs w !! dest).
  { rewrite Hfs1. apply fs_mkdir_p_other, not_own_ancestor. }
  destruct r1 as [[]|e1].
  2:{ rewrite (bind_raise _ _ _ _ _ E1). eauto. }
  rewrite (bind_ok _ _ _ _ _ E1). cbv zeta. rewrite bind_get_fs.
  destruct (streaming_block_raises resp dest
              (resume && fs_exists (w_fs w1) (temp_part_path dest)) w1)
    as (w2 & e2 & E2 & H2).
  match goal with
  | |- context [bind (try_except ?m ?h) ?k w1] =>
      assert (E : exists e, try_except m h w1 = (w2, Raise e))
  end.
  { rewrite (try_except_raise _ _ _ _ _ E2).
    destruct (bool_decide (exn_kind_of e2 = DownloadError)); unfold raise; eauto. }
  destruct E as (e & E). rewrite (bind_raise _ _ _ _ _ E).
  exists w2, e. split; [reflexivity | congruence].
Qed.

Lemma attempted_write_never_ok resp dest_path w w1 p :
  attempt (on_fs (fs_mkdir_p (parent dest_path)) ;;;
           write_stream_to_tempfile resp dest_path true) w = (w1, Ok (Ok p)) ->
  False.
Proof.
  intros H.
  destruct (attempt_never_raises
              (on_fs (fs_mkdir_p (parent dest_path)) ;;;
               write_stream_to_tempfile resp dest_path true) w)
    as (w2 & r & Ha & Hm).
  rewrite Ha in H. inversion H; subst.
  apply bind_inv_ok in Hm as (w3 & [] & _ & Hm).
  destruct (write_stream_to_tempfile_raises resp dest_path true w3) as (w4 & e & He & _).
  congruence.
Qed.

(** Splits the hypothesis [H], a run of a sequence of actions that
    returned, along the code of the sequence. *)
Ltac walk H :=
  repeat first
    [ progress cbv beta zeta in H
    | match type of H with
      | bind _ _ _ = (_, Ok _) =>
          let Hm := fresh "Hm" in
          apply bind_inv_ok in H as (? & ? & Hm & H)
      | ret _ _ = _ => unfold ret in H
      | (_, Ok _) = (_, Ok _) => inversion H; subst; clear H
      | (_, Raise _) = (_, Ok _) => discriminate H
      | (_, Ok (_, Raise _)) = (_, Ok (_, Ok _)) => discriminate H
      | (match ?x with _ => _ end) _ = _ => destruct x eqn:?
      | (if ?b then _ else _) _ = _ => destruct b eqn:?
      end ].

(** No attempt of the per-item task ends with a written path. *)
Lemma attempt_body_never_ok env self st n w w' st' p :
  attempt_body env self st n w = (w', Ok (st', Ok p)) -> False.
Proof.
  unfold attempt_body. intros H. walk H.
  all: try discriminate.
  all: try (eapply attempted_write_never_ok; eassumption).
Qed.

Lemma retry_loop_never_succeeds env self fuel :
  forall n st att le w w' r,
    retry_loop env self fuel n st att le w = (w', Ok (TaskDone r)) ->
    success r = false.
Proof.
  induction fuel as [|fuel IH]; intros n st att le w w' r H; simpl in H.
  - inversion H. reflexivity.
  - apply bind_inv_ok in H as (w1 & [st1 [p|exc]] & Hb & H); simpl in H.
    + exfalso. eapply attempt_body_never_ok, Hb.
    + destruct (n <? max_retries self).
      * apply bind_inv_ok in H as (w2 & [[]|e] & _ & H).
        -- eapply IH, H.
        -- inversion H.
      * inversion H. reflexivity.
Qed.

(** C1, what the code does.  [write_stream_to_tempfile] streams the body
    to the part file and then always raises, because of its call
    [atomic_write(dest, chunks=None, data=None)]: the promotion below that
    call is never reached and the destination keeps what it had.  Hence a
    successful result of the per-item task can only come from the skip at
    its start, with no attempt made. *)
Theorem streamed_download_is_never_promoted :
  (forall resp dest resume w,
      exists w' e,
        write_stream_to_tempfile resp dest resume w = (w', Raise e)
        /\ w_fs w' !! dest = w_fs w !! dest)
  /\ (forall env self it w w' r,
        _download_task env self it w = (w', Ok (TaskDone r)) ->
        success r = true -> w' = w /\ attempts r = 0).
Proof.
  split.
  - apply write_stream_to_tempfile_raises.
  - intros env self it w w' r H Hs. unfold _download_task in H.
    rewrite bind_get_fs in H. cbv zeta in H.
    match type of H with
    | (if ?b then _ else _) _ = _ => destruct b
    end.
    + inversion H; subst. split; reflexivity.
    + apply retry_loop_never_succeeds in H. congruence.
Qed.

(** C1 at a concrete input: the server answers every request with
    200 and a body of four bytes.  The task makes its three attempts, each
    of which appends the body to the part file, and reports failure; the
    target path stays empty. *)
Lemma streamed_download_example :
  let run := _download_task demo_env demo_installer absent_item
               (world_of {[ [] := Dir; ["inst"] := Dir; ["inst"; "mods"] := Dir ]}) in
  (exists r, run.2 = Ok (TaskDone r) /\ success r = false /\ attempts r = 3
             /\ error r = Some "Failed writing stream to temp file /inst/mods/a.jar.part: Provide exactly one of `data` or `chunks`.")
  /\ count_gets (w_trace run.1) = 3%nat
  /\ w_fs run.1 !! ["inst"; "mods"; "a.jar"] = None
  /\ w_fs run.1 !! ["inst"; "mods"; "a.jar.part"]
     = Some (File [x50; x4b; x03; x04; x50; x4b; x03; x04; x50; x4b; x03; x04]).
Proof.
  vm_compute. split; [|repeat split].
  eexists. repeat split.
Qed.

(* ------------------------------------------------------------------ *)
(** ** atomic_write *)













(* ------------------------------------------------------------------ *)
(** ** Removal *)

Lemma lookup_prune (p : path) (fs : FS) (q : path) :
  prune p fs !! q = if under p q then None else fs !! q.
Proof.
  unfold prune, under. destruct (strip_prefix p q) as [r|] eqn:E.
  - apply map_lookup_filter_None. right. intros n _. simpl. congruence.
  - destruct (fs !! q) as [n|] eqn:El.
    + apply map_lookup_filter_Some. split; [exact El | exact E].
    + apply map_lookup_filter_None. left. exact El.
Qed.



(** [safe_remove] returns; it changes nothing outside the tree at [p] and
    sends nothing. *)
Lemma safe_remove_spec p w :
  exists w1,
    safe_remove p w = (w1, Ok tt)
    /\ (forall q, under p q = false -> w_fs w1 !! q = w_fs w !! q)
    /\ w_fs w1 !! p = None
    /\ w_trace w1 = w_trace w /\ w_requests w1 = w_requests w
    /\ w_draws w1 = w_draws w /\ w_clock w1 = w_clock w.
Proof.
  unfold safe_remove. simpl. unfold try_except, remove_once.
  rewrite bind_get_fs. unfold fs_is_dir, fs_exists.
  destruct (w_fs w !! p) as [[|d]|] eqn:E.
  - unfold on_fs, fs_rmtree. rewrite E. simpl. eexists. split; [reflexivity|]. simpl.
    split; [|split; [|auto]].
    + intros q Hq. rewrite lookup_prune, Hq. reflexivity.
    + rewrite lookup_prune. unfold under.
      replace (strip_prefix p p) with (Some (@nil string)); [reflexivity|].
      clear. induction p as [|a p IH]; simpl; [reflexivity|].
      now rewrite String.eqb_refl.
  - unfold on_fs, fs_unlink. rewrite E. simpl. eexists. split; [reflexivity|]. simpl.
    split; [|split; [|auto]].
    + intros q Hq. apply lookup_delete_ne. intros <-.
      unfold under in Hq.
      replace (strip_prefix p p) with (Some (@nil string)) in Hq; [discriminate|].
      clear. induction p as [|a p IH]; simpl; [reflexivity|].
      now rewrite String.eqb_refl.
    + apply lookup_delete_eq.
  - exists w. unfold ret. repeat split; auto.
Qed.

Lemma mkdir_chain_ready t qs fs :
  (forall q, In q qs -> fs !! q = Some Dir) -> mkdir_chain t qs fs = (fs, Ok tt).
Proof.
  induction qs as [|x qs IH]; intros H; simpl; [reflexivity|].
  rewrite (H x) by now left. apply IH. intros q Hq. apply H. now right.
Qed.



(* ------------------------------------------------------------------ *)
(** ** The retrying download *)

Lemma on_fs_id {A} (op : FS -> FS * res A) w r :
  op (w_fs w) = (w_fs w, r) -> on_fs op w = (w, r).
Proof. intros H. unfold on_fs. rewrite H. destruct w; reflexivity. Qed.

Lemma mkdir_ready dest w :
  dirs_ready dest w -> on_fs (fs_mkdir_p (parent dest)) w = (w, Ok tt).
Proof. intros H. apply on_fs_id. apply mkdir_chain_ready, H. Qed.


Lemma round_half_even_nonneg q : (0 <= q)%Q -> 0 <= round_half_even q.
Proof.
  intros H. unfold round_half_even.
  assert (Hf : 0 <= Qfloor q).
  { change 0 with (Qfloor 0). now apply Qfloor_resp_le. }
  destruct (Qcompare (q - inject_Z (Qfloor q)) (1 # 2)); [destruct (Z.even _)| |]; lia.
Qed.

Lemma round4_nonneg q : (0 <= q)%Q -> (0 <= round4 q)%Q.
Proof.
  intros H. unfold round4.
  assert (Hr : 0 <= round_half_even (q * 10000)).
  { apply round_half_even_nonneg. apply Qmult_le_0_compat; [exact H | discriminate]. }
  unfold Qdiv, Qmult, Qinv, Qle. simpl. rewrite Z.mul_0_l, !Z.mul_1_r. exact Hr.
Qed.

Lemma exponential_backoff_ok env attempt base w :
  1 <= attempt -> (0 <= base)%Q ->
  exists w1 wait,
    exponential_backoff env attempt base w = (w1, Ok wait)
    /\ (0 <= wait)%Q /\ quiet w w1.
Proof.
  intros Ha Hb. unfold exponential_backoff, exponential_backoff_full.
  destruct (attempt <? 1) eqn:E; [apply Z.ltb_lt in E; lia|].
  destruct (Qlt_le_dec base 0) as [Hlt|_]; [exfalso; eapply Qlt_not_le; eauto|].
  destruct (Qlt_le_dec 0 2) as [_|Hc]; [|exfalso; apply (Qle_not_lt _ _ Hc); reflexivity].
  destruct (Qlt_le_dec 0 30) as [_|Hc]; [|exfalso; apply (Qle_not_lt _ _ Hc); reflexivity].
  unfold bind, random, ret. eexists. eexists. split; [reflexivity|]. split.
  - apply round4_nonneg. apply Q.le_max_l.
  - split; reflexivity.
Qed.

Lemma time_sleep_ok d w :
  (0 <= d)%Q -> exists w1, time_sleep d w = (w1, Ok tt) /\ quiet w w1.
Proof.
  intros H. unfold time_sleep.
  destruct (Qlt_le_dec d 0) as [Hlt|_]; [exfalso; eapply Qlt_not_le; eauto|].
  eexists. split; [reflexivity|]. split; reflexivity.
Qed.


Lemma quiet_trans w1 w2 w3 : quiet w1 w2 -> quiet w2 w3 -> quiet w1 w3.
Proof. intros [H1 H2] [H3 H4]. split; congruence. Qed.


(** Back-off then sleep: returns, writes and sends nothing. *)
Lemma backoff_and_sleep env attempt base w :
  1 <= attempt -> (0 <= base)%Q ->
  exists w1,
    (wait <- exponential_backoff env attempt base ;; time_sleep wait) w = (w1, Ok tt)
    /\ quiet w w1.
Proof.
  intros Ha Hb.
  destruct (exponential_backoff_ok env attempt base w Ha Hb) as (w1 & wait & E1 & Hw & Q1).
  destruct (time_sleep_ok wait w1 Hw) as (w2 & E2 & Q2).
  exists w2. rewrite (bind_ok _ _ _ _ _ E1). split; [exact E2 | eapply quiet_trans; eauto].
Qed.









(** Without a budget the loop is not entered and the function raises
    instead of returning: a per-call [max_retries] below zero is taken as
    it is, unlike the value given to the constructor. *)
Lemma download_without_budget_raises env self url folder filename hashes n resume w fs1 :
  n < 0 ->
  fs_mkdir_p folder (w_fs w) = (fs1, Ok tt) ->
  exists w' msg,
    download_url_to_folder env self url folder filename hashes (Some n) resume w
    = (w', Raise (Exn UnboundLocalError msg)).
Proof.
  intros Hn Hmk. unfold download_url_to_folder.
  destruct (on_fs (fs_mkdir_p folder) w) as [w1 r] eqn:E.
  pose proof (on_fs_run (fs_mkdir_p folder) w) as [_ Hr].
  rewrite E, Hmk in Hr. simpl in Hr. subst r.
  rewrite (bind_ok _ _ _ _ _ E). cbv zeta. rewrite bind_time_time.
  unfold max_attempts_of. destruct (n =? 0) eqn:E0; [apply Z.eqb_eq in E0; lia|].
  replace (Z.to_nat n) with 0%nat by lia. simpl. unfold raise. eauto.
Qed.

(* ------------------------------------------------------------------ *)
(** ** Retry-After in the download wrapper *)

Lemma all_digits_rstrip s : has_other s = true -> all_digits (rstrip s) = false.
Proof.
  induction s as [|c r IH]; simpl; [discriminate|].
  intros H. apply orb_true_iff in H as [H | H].
  - apply andb_true_iff in H as [Hs Hd].
    apply negb_true_iff in Hs, Hd. rewrite Hs.
    destruct (rstrip r); simpl; now rewrite Hd.
  - specialize (IH H). destruct (rstrip r) as [|c' r'] eqn:E; [discriminate IH|].
    cbn [all_digits] in *. rewrite IH. apply andb_false_r.
Qed.

Lemma has_other_lstrip s : has_other (lstrip s) = has_other s.
Proof.
  induction s as [|c r IH]; simpl; [reflexivity|].
  destruct (is_space c) eqn:E; simpl; [exact IH | now rewrite E].
Qed.

Lemma isdigit_strip_other s : has_other s = true -> isdigit (strip s) = false.
Proof.
  intros H. unfold isdigit, strip.
  rewrite <- has_other_lstrip in H. apply all_digits_rstrip in H.
  destruct (rstrip (lstrip s)); [reflexivity | exact H].
Qed.

(** The text reported for a 429 is not a number of seconds. *)
Lemma rate_limit_text_is_no_number x : isdigit (strip (rate_limit_text x)) = false.
Proof. apply isdigit_strip_other. vm_compute. reflexivity. Qed.

Lemma parse_retry_after_of_rate_limit_text env now x :
  parsedate_to_datetime env (rate_limit_text x) = None ->
  parse_retry_after env now (RaStr (rate_limit_text x)) = 0%Q.
Proof.
  intros H. unfold parse_retry_after.
  rewrite rate_limit_text_is_no_number, H. reflexivity.
Qed.

(** C2, what the code does.  When an attempt is answered with 429, the
    wrapper hands the whole error text of the attempt, not the header, to
    [parse_retry_after]; that text is not a number, so (the date parser
    rejecting it as well) the parsed value is 0 and the wrapper waits the
    exponential back-off, whatever [Retry-After] said. *)
Theorem retry_after_is_replaced_by_backoff :
  forall env self url dest hashes resume fuel attempts result last_err w resp,
    (forall x, parsedate_to_datetime env (rate_limit_text x) = None) ->
    dirs_ready dest w ->
    (forall hdrs, requests_get env (w_requests w) url hdrs = Ok resp) ->
    status_code resp = 429 ->
    exists w2 r,
      _attempt_download env url dest hashes resume w = (w2, Ok r)
      /\ dr_success r = false
      /\ dr_error r
         = Some (rate_limit_text
                   (float_str env (parse_retry_after env (w_clock w)
                                     (retry_after_header resp))))
      /\ download_loop env self url dest hashes resume (S fuel) attempts result last_err w
         = (wait <- exponential_backoff env (attempts + 1) (dm_backoff_base self) ;;
            time_sleep wait ;;;
            download_loop env self url dest hashes resume fuel (attempts + 1)
                          (Some r) last_err) w2.
Proof.
  intros env self url dest hashes resume fuel attempts result last_err w resp
         Hdate Hready Hsrv H429.
  assert (Hrun : exists w2 r,
             _attempt_download env url dest hashes resume w = (w2, Ok r)
             /\ dr_success r = false
             /\ dr_error r
                = Some (rate_limit_text
                          (float_str env (parse_retry_after env (w_clock w)
                                            (retry_after_header resp))))
             /\ w_clock w2 = w_clock w).
  { unfold _attempt_download.
    rewrite (bind_ok _ _ _ _ _ (mkdir_ready dest w Hready)). cbv zeta.
    rewrite bind_get_fs.
    unfold bind at 1. unfold try_except, bind at 1, http_get, ret at 1.
    rewrite Hsrv, H429. simpl. rewrite bind_time_time. simpl.
    eexists. eexists. split; [reflexivity|]. simpl. auto. }
  destruct Hrun as (w2 & r & Hrun & Hfail & Herr & Hclock).
  exists w2, r. split; [exact Hrun|]. split; [exact Hfail|]. split; [exact Herr|].
  cbn [download_loop]. cbv zeta. rewrite (bind_ok _ _ _ _ _ Hrun), Hfail.
  rewrite Herr.
  replace (error_has "429" (Some (rate_limit_text
             (float_str env (parse_retry_after env (w_clock w) (retry_after_header resp))))))
    with true by (vm_compute; reflexivity).
  rewrite bind_time_time.
  rewrite parse_retry_after_of_rate_limit_text by apply Hdate.
  unfold retry_wait.
  destruct (Qlt_le_dec 0 0) as [Hc|_]; [exfalso; revert Hc; apply Qlt_irrefl|].
  unfold bind. destruct (exponential_backoff env (attempts + 1) (dm_backoff_base self) w2)
    as [w3 [wait|e]]; reflexivity.
Qed.

Lemma retry_after_is_replaced_by_backoff_witness :
  exists w2 r,
    (forall x, parsedate_to_datetime rate_limiting_env (rate_limit_text x) = None)
    /\ dirs_ready ["inst"; "a.jar"] demo_world
    /\ (forall hdrs,
          requests_get rate_limiting_env (w_requests demo_world)
            "http://cdn.example/a.jar" hdrs
          = Ok (demo_response 429 "Too Many Requests" [("Retry-After", "2")]))
    /\ status_code (demo_response 429 "Too Many Requests" [("Retry-After", "2")]) = 429
    /\ _attempt_download rate_limiting_env "http://cdn.example/a.jar" ["inst"; "a.jar"]
         None true demo_world = (w2, Ok r)
    /\ dr_success r = false
    /\ dr_error r = Some (rate_limit_text "2.0")
    /\ download_loop rate_limiting_env demo_manager "http://cdn.example/a.jar"
         ["inst"; "a.jar"] None true 4 0 None None demo_world
       = (wait <- exponential_backoff rate_limiting_env (0 + 1)
                    (dm_backoff_base demo_manager) ;;
          time_sleep wait ;;;
          download_loop rate_limiting_env demo_manager "http://cdn.example/a.jar"
                        ["inst"; "a.jar"] None true 3 (0 + 1) (Some r) None) w2.
Proof.
  assert (Hready : dirs_ready ["inst"; "a.jar"] demo_world).
  { intros q [<- | []]. reflexivity. }
  destruct (retry_after_is_replaced_by_backoff rate_limiting_env demo_manager
              "http://cdn.example/a.jar" ["inst"; "a.jar"] None true 3 0 None None
              demo_world (demo_response 429 "Too Many Requests" [("Retry-After", "2")]))
    as (w2 & r & H1 & H2 & H3 & H4);
    [reflexivity | exact Hready | reflexivity | reflexivity |].
  exists w2, r. repeat split; try assumption; try reflexivity.
Defined.

(** C2 at the input of the scenario: 429 with [Retry-After: 2], then 200.
    The download succeeds with [attempts = 2]; between the two requests the
    wrapper sleeps the first back-off, 0.6 s for a random draw of one half,
    not the two seconds the server asked for. *)
Lemma rate_limited_download_example :
  let run := download_url_to_folder rate_limiting_env demo_manager
               "http://cdn.example/a.jar" ["downloads"] None None None true demo_world in
  (exists res, run.2 = Ok res /\ dr_success res = true /\ dr_attempts res = 2)
  /\ exists d,
      w_trace run.1
      = [EvGet "http://cdn.example/a.jar" []; EvSleep d;
         EvGet "http://cdn.example/a.jar" []]
      /\ (d == 3 # 5)%Q /\ (d < 2)%Q.
Proof.
  vm_compute. split.
  - eexists. repeat split.
  - eexists. split; [reflexivity|]. split; reflexivity.
Qed.

Lemma streamed_download_is_never_promoted_witness :
  _download_task demo_env demo_installer present_item demo_world
  = (demo_world, Ok (TaskDone (skipped_result present_item ["inst"; "options.txt"])))
  /\ success (skipped_result present_item ["inst"; "options.txt"]) = true
  /\ demo_world = demo_world
  /\ attempts (skipped_result present_item ["inst"; "options.txt"]) = 0.
Proof.
  assert (E : _download_task demo_env demo_installer present_item demo_world
              = (demo_world,
                 Ok (TaskDone (skipped_result present_item ["inst"; "options.txt"]))))
    by (vm_compute; reflexivity).
  split; [exact E|]. split; [reflexivity|].
  exact (proj2 streamed_download_is_never_promoted demo_env demo_installer present_item
           demo_world demo_world (skipped_result present_item ["inst"; "options.txt"])
           E eq_refl).
Defined.
(* ------------------------------------------------------------------ *)
(** ** Paths and trees *)

Lemma strip_prefix_app (p r : path) : strip_prefix p (p ++ r) = Some r.
Proof. induction p as [|a p IH]; simpl; [reflexivity|]. now rewrite String.eqb_refl. Qed.

Lemma strip_prefix_Some (p q r : path) : strip_prefix p q = Some r -> q = p ++ r.
Proof.
  revert q. induction p as [|a p IH]; intros q H; simpl in H.
  - inversion H. reflexivity.
  - destruct q as [|b q]; [discriminate|].
    destruct (String.eqb a b) eqn:E; [|discriminate].
    apply String.eqb_eq in E. subst b. simpl. f_equal. now apply IH.
Qed.


Lemma under_app (p r : path) : under p (p ++ r) = true.
Proof. unfold under. now rewrite strip_prefix_app. Qed.


Lemma under_inv (p q : path) : under p q = true -> exists r, q = p ++ r.
Proof.
  unfold under. destruct (strip_prefix p q) as [r|] eqn:E; [|discriminate].
  intros _. exists r. now apply strip_prefix_Some.
Qed.



Lemma below_app (root : path) (c : string) (cs : path) : below root (root ++ c :: cs).
Proof.
  split; [apply under_app|]. intros H. apply (f_equal (@length string)) in H.
  rewrite length_app in H. simpl in H. lia.
Qed.

Lemma below_inv (root q : path) : below root q -> exists c cs, q = root ++ c :: cs.
Proof.
  intros [H Hne]. apply under_inv in H as ([|c cs] & ->).
  - rewrite app_nil_r in Hne. contradiction.
  - eauto.
Qed.

Lemma below_under (root p q : path) : below root p -> under p q = true -> below root q.
Proof.
  intros Hb Hu. apply below_inv in Hb as (c & cs & ->). apply under_inv in Hu as (r & ->).
  rewrite <- app_assoc. simpl. apply below_app.
Qed.






Lemma name_app (p : path) (c : string) (cs : path) : name (p ++ c :: cs) = name (c :: cs).
Proof. unfold name. revert c. induction p as [|a p IH]; intros c; [reflexivity|]. simpl. destruct (p ++ c :: cs) eqn:E; [destruct p; discriminate|]. rewrite <- E. apply IH. Qed.



(* ------------------------------------------------------------------ *)
(** ** Relations kept by actions *)

Section Keeping.
Context (R : World -> World -> Prop).
Hypothesis R_refl : forall w, R w w.
Hypothesis R_trans : forall a b c, R a b -> R b c -> R a c.









End Keeping.

(** Relations between the file systems are kept by what does not write. *)
Section KeepingFiles.
Context (P : FS -> FS -> Prop).
Hypothesis P_refl : forall fs, P fs fs.
Hypothesis P_trans : forall a b c, P a b -> P b c -> P a c.







End KeepingFiles.



Section KeepingFilesMore.
Context (P : FS -> FS -> Prop).
Hypothesis P_refl : forall fs, P fs fs.
Hypothesis P_trans : forall a b c, P a b -> P b c -> P a c.



End KeepingFilesMore.

(* ------------------------------------------------------------------ *)
(** ** Writing below the instance root *)





(** A change inside a tree below the root. *)
Lemma confined_tree root x fs fs' :
  below root x -> (forall q, under x q = false -> fs' !! q = fs !! q) -> confined root fs fs'.
Proof.
  intros Hb H q. destruct (under x q) eqn:E.
  - right. left. eapply below_under; eauto.
  - left. now apply H.
Qed.






Lemma keeps_safe_remove root p : below root p -> keeps (on_files (confined root)) (safe_remove p).
Proof.
  intros Hb w w' r H.
  destruct (safe_remove_spec p w) as (w1 & E & Hout & _).
  rewrite E in H. inversion H; subst. apply (confined_tree root p); assumption.
Qed.





(* ------------------------------------------------------------------ *)
(** ** The download phase writes below the instance root *)








(** ** The overrides are copied below the instance root *)



(* ------------------------------------------------------------------ *)
(** ** The planned items lie below the instance root *)













(* ------------------------------------------------------------------ *)
(** ** Copying and moving trees *)








(* ------------------------------------------------------------------ *)
(** ** The backup *)









(* ------------------------------------------------------------------ *)
(** ** Rollback *)










(* ------------------------------------------------------------------ *)
(** ** The dry run *)


















(** The backup step never raises. *)
Lemma make_backup_returns env root w :
  exists w1 backup, make_backup env root w = (w1, Ok backup).
Proof.
  unfold make_backup, try_except.
  match goal with |- context [match ?m w with _ => _ end] => destruct (m w) as [w1 [a|e]] end;
    unfold ret; eauto.
Qed.

(** What a dry run with the default options does to an instance that
    holds one file: the API client is asked for the download URL of the
    planned item, and no HTTP request is sent. *)
Lemma dry_run_example :
  exists w' rep,
    install_from_manifest demo_env demo_installer (SrcDict demo_manifest_clean)
      ["inst"] true true true true demo_world = (w', Ok rep)
    /\ w_trace w' = [EvClient "get_file_download_url" 1 2]
    /\ w_requests w' = 0%nat
    /\ results rep = [dry_run_result
                        {| project_id := 1; file_id := 2; required := true;
                           remote_file_name := Some "a.jar";
                           download_url := Some "http://cdn.example/a.jar";
                           expected_hashes := [];
                           target_folder := Some ["inst"; "mods"];
                           target_path := Some ["inst"; "mods"; "a.jar"];
                           size_bytes := None; metadata := [] |}].
Proof. eexists. eexists. split; [vm_compute; reflexivity|]. repeat split. Qed.



